(** * Backend_CMS: authentication gates, lockout, list pagination and rating
      histograms.

    A shallow embedding of the admin backend's request handlers
    (middleware/auth.js, routes/auth.js, routes/news.js,
    routes/feedback.js) together with the properties of the specification
    that concern them.

    Conventions.
    - JavaScript numbers are exact: a number is NaN, an infinity or a
      rational; there is no rounding and no negative zero.  Document
      counts and page sizes are far below 2^53, where this is what the
      engine computes.
    - Query-string parameters are absent or strings (repeated and nested
      parameters are not modelled).
    - Collaborators that are not part of the repository's own code
      (jsonwebtoken, bcrypt, validator.js, the document-store driver) are
      methods of type classes; every property holds for each of their
      implementations. *)

From Stdlib Require Import ZArith QArith Qcanon Qround String Ascii List Bool Lia.
From stdpp Require Import base decidable option numbers countable list strings
  pretty gmap.

Local Open Scope string_scope.
Local Open Scope Z_scope.

(** ** JavaScript numbers and values *)

Inductive jsnum : Type :=
  | JNaN
  | JInf (neg : bool)
  | JFin (q : Qc).

Inductive jsval : Type :=
  | VUndefined
  | VNull
  | VStr (s : string)
  | VNum (n : jsnum).

#[global] Instance jsnum_eq_dec : EqDecision jsnum.
Proof. solve_decision. Defined.

#[global] Instance jsval_eq_dec : EqDecision jsval.
Proof. solve_decision. Defined.

Definition jsnum_encode (n : jsnum) : option (bool + Qc) :=
  match n with
  | JNaN => None
  | JInf b => Some (inl b)
  | JFin q => Some (inr q)
  end.

Definition jsnum_decode (o : option (bool + Qc)) : jsnum :=
  match o with
  | None => JNaN
  | Some (inl b) => JInf b
  | Some (inr q) => JFin q
  end.

#[global] Instance jsnum_countable : Countable jsnum.
Proof.
  apply (inj_countable' jsnum_encode jsnum_decode).
  intros []; reflexivity.
Defined.

Definition num (z : Z) : jsnum := JFin (Qc_of_Z z).

Definition qIsZero (q : Qc) : bool := Qeq_bool q 0.
Definition qIsNeg (q : Qc) : bool := negb (Qle_bool 0 q).

(** The integer a rational is, when it is one. *)
Definition qToZ (q : Qc) : option Z :=
  if Pos.eqb (Qden q) 1 then Some (Qnum q) else None.

Definition jsToZ (n : jsnum) : option Z :=
  match n with
  | JFin q => qToZ q
  | _ => None
  end.

(** [a - b] *)
Definition jsub (a b : jsnum) : jsnum :=
  match a, b with
  | JNaN, _ | _, JNaN => JNaN
  | JInf s, JInf t => if Bool.eqb s t then JNaN else JInf s
  | JInf s, JFin _ => JInf s
  | JFin _, JInf t => JInf (negb t)
  | JFin x, JFin y => JFin (x - y)
  end.

(** [a + b] *)
Definition jadd (a b : jsnum) : jsnum :=
  match a, b with
  | JNaN, _ | _, JNaN => JNaN
  | JInf s, JInf t => if Bool.eqb s t then JInf s else JNaN
  | JInf s, JFin _ => JInf s
  | JFin _, JInf t => JInf t
  | JFin x, JFin y => JFin (x + y)
  end.

(** [a * b] *)
Definition jmul (a b : jsnum) : jsnum :=
  match a, b with
  | JNaN, _ | _, JNaN => JNaN
  | JInf s, JInf t => JInf (xorb s t)
  | JInf s, JFin y => if qIsZero y then JNaN else JInf (xorb s (qIsNeg y))
  | JFin x, JInf t => if qIsZero x then JNaN else JInf (xorb (qIsNeg x) t)
  | JFin x, JFin y => JFin (x * y)
  end.

(** [a / b] *)
Definition jdiv (a b : jsnum) : jsnum :=
  match a, b with
  | JNaN, _ | _, JNaN => JNaN
  | JInf _, JInf _ => JNaN
  | JInf s, JFin y => JInf (xorb s (qIsNeg y))
  | JFin _, JInf _ => JFin 0
  | JFin x, JFin y =>
      if qIsZero y then (if qIsZero x then JNaN else JInf (qIsNeg x))
      else JFin (x / y)
  end.

(** [Math.ceil] *)
Definition jceil (a : jsnum) : jsnum :=
  match a with
  | JFin x => num (Qceiling x)
  | _ => a
  end.

(** Truthiness ([if (v)], [v && ...], [v || ...]). *)
Definition numTruthy (n : jsnum) : bool :=
  match n with
  | JNaN => false
  | JInf _ => true
  | JFin q => negb (qIsZero q)
  end.

Definition truthy (v : jsval) : bool :=
  match v with
  | VUndefined | VNull => false
  | VStr s => negb (String.eqb s "")
  | VNum n => numTruthy n
  end.

(** ** Strings

    A string holds the text as its UTF-8 bytes, so a character outside
    ASCII takes two to four of them. *)

Definition byteOf (c : ascii) : nat := nat_of_ascii c.

(** A byte that continues a character begun before it. *)
Definition isContinuation (c : ascii) : bool :=
  (Nat.leb 128 (byteOf c) && Nat.ltb (byteOf c) 192)%bool.

(** The characters of a text: the bytes that begin one. *)
Fixpoint codePoints (s : string) : nat :=
  match s with
  | String c r => (if isContinuation c then 0 else 1) + codePoints r
  | EmptyString => 0
  end.

(** The variation selectors U+FE0E and U+FE0F of a text. *)
Fixpoint variationSelectors (s : string) : nat :=
  match s with
  | String a r =>
      match r with
      | String b (String c _) =>
          if (Nat.eqb (byteOf a) 239 && Nat.eqb (byteOf b) 184
              && (Nat.eqb (byteOf c) 142 || Nat.eqb (byteOf c) 143))%bool
          then 1 else 0
      | _ => 0
      end + variationSelectors r
  | EmptyString => 0
  end.

(** The length validator.js [isLength] compares with its bounds:
    [str.length] less the surrogate pairs and less the variation selectors
    of [str].  A character outside the basic plane is two code units that
    make one surrogate pair, so this is the number of characters less the
    variation selectors. *)
Definition validatorLength (s : string) : Z :=
  Z.of_nat (codePoints s) - Z.of_nat (variationSelectors s).

(** ** Strings to numbers *)

(** The white space and the line terminators of the language, which
    [parseInt], [Number] and [trim] skip.  Those of one byte: tab, line
    feed, vertical tab, form feed, carriage return and space. *)
Definition isWhite (c : ascii) : bool :=
  let n := nat_of_ascii c in
  (Nat.eqb n 32 || Nat.eqb n 9 || Nat.eqb n 10 || Nat.eqb n 11
   || Nat.eqb n 12 || Nat.eqb n 13)%bool.

(** The one of two bytes: U+00A0. *)
Definition isWhite2 (a b : ascii) : bool :=
  (Nat.eqb (byteOf a) 194 && Nat.eqb (byteOf b) 160)%bool.

(** Those of three bytes: U+1680, U+2000 to U+200A, U+2028, U+2029,
    U+202F, U+205F, U+3000 and U+FEFF. *)
Definition isWhite3 (a b c : ascii) : bool :=
  ((Nat.eqb (byteOf a) 225 && Nat.eqb (byteOf b) 154 && Nat.eqb (byteOf c) 128)
   || (Nat.eqb (byteOf a) 226 && Nat.eqb (byteOf b) 128
       && ((Nat.leb 128 (byteOf c) && Nat.leb (byteOf c) 138)
           || Nat.eqb (byteOf c) 168 || Nat.eqb (byteOf c) 169
           || Nat.eqb (byteOf c) 175))
   || (Nat.eqb (byteOf a) 226 && Nat.eqb (byteOf b) 129 && Nat.eqb (byteOf c) 159)
   || (Nat.eqb (byteOf a) 227 && Nat.eqb (byteOf b) 128 && Nat.eqb (byteOf c) 128)
   || (Nat.eqb (byteOf a) 239 && Nat.eqb (byteOf b) 187 && Nat.eqb (byteOf c) 191))%bool.

Fixpoint trimStart (s : string) : string :=
  match s with
  | String a r =>
      if isWhite a then trimStart r
      else
        match r with
        | String b r2 =>
            if isWhite2 a b then trimStart r2
            else
              match r2 with
              | String c r3 => if isWhite3 a b c then trimStart r3 else s
              | EmptyString => s
              end
        | EmptyString => s
        end
  | EmptyString => EmptyString
  end.

(** What is left when the white space at the end is taken off: nothing of
    a string that is white space only, and else the first byte and what is
    left of the rest. *)
Fixpoint trimEnd (s : string) : string :=
  match s with
  | String a r =>
      match trimStart s with
      | EmptyString => EmptyString
      | _ => String a (trimEnd r)
      end
  | EmptyString => EmptyString
  end.

Definition digitOf (radix : Z) (c : ascii) : option Z :=
  let n := Z.of_nat (nat_of_ascii c) in
  let d :=
    if (48 <=? n) && (n <=? 57) then n - 48
    else if (97 <=? n) && (n <=? 122) then n - 87
    else if (65 <=? n) && (n <=? 90) then n - 55
    else 99 in
  if d <? radix then Some d else None.

(** The value of the longest prefix of digits of [s], with what follows it;
    [None] when [s] does not start with a digit. *)
Fixpoint digitsFrom (radix : Z) (acc : option Z) (s : string) : option Z * string :=
  match s with
  | String c r =>
      match digitOf radix c with
      | Some d => digitsFrom radix (Some (radix * default 0 acc + d)) r
      | None => (acc, s)
      end
  | EmptyString => (acc, s)
  end.

(** An optional sign: [(negative, rest)]. *)
Definition takeSign (s : string) : bool * string :=
  match s with
  | String "-" r => (true, r)
  | String "+" r => (false, r)
  | _ => (false, s)
  end.

Definition isHexPrefix (s : string) : option string :=
  match s with
  | String "0" (String "x" r) | String "0" (String "X" r) => Some r
  | _ => None
  end.

Definition signed (neg : bool) (z : Z) : Z := if neg then - z else z.

(** [parseInt(s)], no radix given: leading white space, a sign, [0x] for
    base 16, then the longest prefix of digits. *)
Definition parseIntStr (s : string) : jsnum :=
  let '(neg, r) := takeSign (trimStart s) in
  let '(radix, r) :=
    match isHexPrefix r with
    | Some r' => (16, r')
    | None => (10, r)
    end in
  match fst (digitsFrom radix None r) with
  | Some z => num (signed neg z)
  | None => JNaN
  end.

(** [parseInt(s, 10)] *)
Definition parseInt10 (s : string) : jsnum :=
  let '(neg, r) := takeSign (trimStart s) in
  match fst (digitsFrom 10 None r) with
  | Some z => num (signed neg z)
  | None => JNaN
  end.

(** A string that is a sign and decimal digits, nothing else. *)
Definition signedDecimal (s : string) : option Z :=
  let '(neg, r) := takeSign s in
  match digitsFrom 10 None r with
  | (Some z, EmptyString) => Some (signed neg z)
  | _ => None
  end.

(** What the engine does outside the integer fragment written out here:
    numeric literals with a fraction, an exponent or a base prefix, and
    [parseInt] of a number that prints with an exponent or a fraction; and
    [String.prototype.toLowerCase], which follows the Unicode tables, and
    [Number.prototype.toFixed], which prints. *)
Class JsRuntime := {
  stringToNumberRest : string → jsnum;
  parseIntOfNumberRest : jsnum → jsnum;
  toLowerCase : string → string;
  (** [n.toFixed(2)] *)
  toFixed2 : jsnum → string;
}.

Section Coercions.
Context `{JsRuntime}.

(** [Number(s)] on a string *)
Definition stringToNumber (s : string) : jsnum :=
  let t := trimEnd (trimStart s) in
  match t with
  | EmptyString => num 0
  | _ =>
      match signedDecimal t with
      | Some z => num z
      | None => stringToNumberRest t
      end
  end.

(** The coercion of arithmetic operands. *)
Definition toNumber (v : jsval) : jsnum :=
  match v with
  | VUndefined => JNaN
  | VNull => num 0
  | VStr s => stringToNumber s
  | VNum n => n
  end.

(** [parseInt(v)]: the argument is printed, then parsed.  An integer below
    10^21 prints as its decimal digits. *)
Definition parseInt (v : jsval) : jsnum :=
  match v with
  | VUndefined | VNull => JNaN
  | VStr s => parseIntStr s
  | VNum JNaN => JNaN
  | VNum (JInf _) => JNaN
  | VNum (JFin q) =>
      match qToZ q with
      | Some z => if Z.abs z <? 10 ^ 21 then num z else parseIntOfNumberRest (JFin q)
      | None => parseIntOfNumberRest (JFin q)
      end
  end.

End Coercions.

(** [x = d] of a destructuring pattern: the default applies to [undefined]
    only. *)
Definition withDefault (v d : jsval) : jsval :=
  match v with
  | VUndefined => d
  | _ => v
  end.

Definition ofQuery (p : option string) : jsval :=
  match p with
  | Some s => VStr s
  | None => VUndefined
  end.

(** ** Requests, responses and thrown errors *)

Record JsError := { errName : string; errMessage : string }.

(** A call returns or throws. *)
Inductive Completion (A : Type) : Type :=
  | Returned (a : A)
  | Threw (e : JsError).
Arguments Returned {A} a.
Arguments Threw {A} e.

Record FieldError := { param : string; msg : string }.

(** The envelope [{success, message, errors, error, data}]; a key that the
    handler does not write is [None]. *)
Record Response (D : Type) := {
  status : Z;
  success : bool;
  message : option string;
  errors : option (list FieldError);
  error : option string;
  data : option D;
}.
Arguments status {D} r.
Arguments success {D} r.
Arguments message {D} r.
Arguments errors {D} r.
Arguments error {D} r.
Arguments data {D} r.

(** [res.status(st).json({ success: false, message: m })] *)
Definition deny {D : Type} (st : Z) (m : string) : Response D :=
  {| status := st; success := false; message := Some m;
     errors := None; error := None; data := None |}.

(** [res.status(400).json({ success: false, message: 'Validation failed',
    errors: errors.array() })] *)
Definition invalid {D : Type} (es : list FieldError) : Response D :=
  {| status := 400; success := false; message := Some "Validation failed";
     errors := Some es; error := None; data := None |}.

(** ** Accounts *)

Record User := {
  u_id : string;
  u_name : string;
  u_email : string;
  u_password : option string;
  u_phone : option string;
  u_role : string;
  u_status : string;
  u_loginAttempts : Z;
  u_lockUntil : option Z;
  u_lastLogin : option Z;
  u_lastActiveAt : option Z;
  u_avatar : option string;
  u_preferences : option string;
}.

(** The object attached to the request as [req.user]; the three places that
    build it write different keys. *)
Record IdentityContext := {
  userId : option string;
  email : option string;
  name : option string;
  role : string;
  ctxStatus : option string;
  preferences : option string;
  isGuest : bool;
}.

Record TokenPayload := {
  tokUserId : option string;
  tokRole : option string;
  tokIsGuest : bool;
}.

(** What runs outside the repository's own code at each request. *)
Class Collaborators := {
  (** [jwt.verify(token, JWT_SECRET)] at the time of the request *)
  jwtVerify : string → Completion TokenPayload;
  (** [jwt.sign(payload, JWT_SECRET, { expiresIn })] at a given time *)
  jwtSign : TokenPayload → Z → string;
  (** bcrypt: hashing on save, and [user.comparePassword] *)
  bcryptHash : string → string;
  bcryptCompare : string → string → bool;
  (** validator.js *)
  isEmail : string → bool;
  normalizeEmail : string → string;
  (** a store read by id that fails (a malformed id, a lost connection) *)
  findByIdFault : option string → option JsError;
  (** the id the store gives a new document *)
  freshId : list User → string;
  (** the status the User schema gives a new account *)
  defaultStatus : string;
  (** [process.env.NODE_ENV === 'development'] *)
  development : bool;
}.

Definition lockThreshold : Z := 5.
Definition lockDuration : Z := 2 * 60 * 60 * 1000.

(** Modelled from the spec: the [isLocked] virtual of models/User.js, which
    is not among the sources.  "isLocked is true iff lockUntil is set and in
    the future". *)
Definition isLocked (now : Z) (u : User) : bool :=
  match u_lockUntil u with
  | Some t => now <? t
  | None => false
  end.

Definition setLockout (attempts : Z) (lock : option Z) (u : User) : User :=
  {| u_id := u_id u; u_name := u_name u; u_email := u_email u;
     u_password := u_password u; u_phone := u_phone u; u_role := u_role u;
     u_status := u_status u; u_loginAttempts := attempts; u_lockUntil := lock;
     u_lastLogin := u_lastLogin u; u_lastActiveAt := u_lastActiveAt u;
     u_avatar := u_avatar u; u_preferences := u_preferences u |}.

(** Modelled from the spec: [incLoginAttempts] of models/User.js, which is
    not among the sources.  "On failed password verification: increment
    failedAttempts.  If the new count reaches a threshold (5), transition to
    Locked with lockUntil = now + lockDuration (2 hours)"; the count is left
    as it is. *)
Definition incLoginAttempts (now : Z) (u : User) : User :=
  let n := u_loginAttempts u + 1 in
  if lockThreshold <=? n then setLockout n (Some (now + lockDuration)) u
  else setLockout n (u_lockUntil u) u.

(** Modelled from the spec: [resetLoginAttempts] of models/User.js, which is
    not among the sources.  "reset failedAttempts to 0, clear lockUntil". *)
Definition resetLoginAttempts (u : User) : User :=
  setLockout 0 None u.

Definition touchLogin (now : Z) (u : User) : User :=
  {| u_id := u_id u; u_name := u_name u; u_email := u_email u;
     u_password := u_password u; u_phone := u_phone u; u_role := u_role u;
     u_status := u_status u; u_loginAttempts := u_loginAttempts u;
     u_lockUntil := u_lockUntil u;
     u_lastLogin := Some now; u_lastActiveAt := u_lastActiveAt u;
     u_avatar := u_avatar u; u_preferences := u_preferences u |}.

Definition touchActive (now : Z) (u : User) : User :=
  {| u_id := u_id u; u_name := u_name u; u_email := u_email u;
     u_password := u_password u; u_phone := u_phone u; u_role := u_role u;
     u_status := u_status u; u_loginAttempts := u_loginAttempts u;
     u_lockUntil := u_lockUntil u;
     u_lastLogin := u_lastLogin u; u_lastActiveAt := Some now;
     u_avatar := u_avatar u; u_preferences := u_preferences u |}.

(** [.select('-password')] *)
Definition withoutPassword (u : User) : User :=
  {| u_id := u_id u; u_name := u_name u; u_email := u_email u;
     u_password := None; u_phone := u_phone u; u_role := u_role u;
     u_status := u_status u; u_loginAttempts := u_loginAttempts u;
     u_lockUntil := u_lockUntil u;
     u_lastLogin := u_lastLogin u; u_lastActiveAt := u_lastActiveAt u;
     u_avatar := u_avatar u; u_preferences := u_preferences u |}.

(** The users collection, in the store's order. *)
Definition findOneByEmail (e : string) (users : list User) : option User :=
  List.find (fun u => String.eqb (u_email u) e) users.

Definition lookupById (id : string) (users : list User) : option User :=
  List.find (fun u => String.eqb (u_id u) id) users.

(** Writes the document with [u]'s id back. *)
Definition updateUser (u : User) (users : list User) : list User :=
  List.map (fun d => if String.eqb (u_id d) (u_id u) then u else d) users.

Definition insertUser (u : User) (users : list User) : list User :=
  users ++ [u].

(** ** The auth gate and the role gates (middleware/auth.js) *)

(** How a middleware ends: it calls [next()], with [req.user] as it then
    is, or it answers the request itself. *)
Inductive Outcome : Type :=
  | Next (reqUser : option IdentityContext)
  | Respond (r : Response unit).

(** The outcome of a middleware together with the ids it read from the
    store, in order. *)
Record Ran := { outcome : Outcome; lookups : list (option string) }.

(** [authHeader && authHeader.startsWith('Bearer ') ? authHeader.substring(7)
    : null] *)
Definition bearerToken (authHeader : option string) : option string :=
  match authHeader with
  | Some h =>
      if truthy (VStr h) && String.prefix "Bearer " h
      then Some (String.substring 7 (String.length h - 7) h)
      else None
  | None => None
  end.

(** [!token] *)
Definition noToken (token : option string) : bool :=
  match token with
  | Some t => negb (truthy (VStr t))
  | None => true
  end.

Section Gates.
Context `{Collaborators}.

(** [User.findById(id).select('-password')]; an absent id finds nothing. *)
Definition findById (id : option string) (users : list User) : Completion (option User) :=
  match findByIdFault id with
  | Some e => Threw e
  | None =>
      match id with
      | Some i => Returned (withoutPassword <$> lookupById i users)
      | None => Returned None
      end
  end.

(** The [catch] block of [authMiddleware]. *)
Definition authCatch (e : JsError) : Response unit :=
  if String.eqb (errName e) "JsonWebTokenError" then deny 401 "Invalid token."
  else if String.eqb (errName e) "TokenExpiredError"
  then deny 401 "Token expired. Please login again."
  else {| status := 500; success := false;
          message := Some "Server error in authentication.";
          errors := None;
          error := if development then Some (errMessage e) else None;
          data := None |}.

Definition guestContext (decoded : TokenPayload) : IdentityContext :=
  {| userId := tokUserId decoded; email := None; name := None;
     role := "guest"; ctxStatus := None; preferences := None;
     isGuest := true |}.

Definition fullContext (user : User) : IdentityContext :=
  {| userId := Some (u_id user); email := Some (u_email user);
     name := Some (u_name user); role := u_role user;
     ctxStatus := Some (u_status user); preferences := u_preferences user;
     isGuest := false |}.

Definition authMiddleware (now : Z) (users : list User)
    (authHeader : option string) : Ran :=
  let token := bearerToken authHeader in
  if noToken token then
    {| outcome := Respond (deny 401 "Access denied. No token provided.");
       lookups := [] |}
  else
    match jwtVerify (default "" token) with
    | Threw e => {| outcome := Respond (authCatch e); lookups := [] |}
    | Returned decoded =>
        if tokIsGuest decoded then
          {| outcome := Next (Some (guestContext decoded)); lookups := [] |}
        else
          let reads := [tokUserId decoded] in
          match findById (tokUserId decoded) users with
          | Threw e => {| outcome := Respond (authCatch e); lookups := reads |}
          | Returned None =>
              {| outcome := Respond (deny 401 "Token is not valid. User not found.");
                 lookups := reads |}
          | Returned (Some user) =>
              if negb (String.eqb (u_status user) "active") then
                {| outcome :=
                     Respond (deny 403 "Account is not active. Please contact support.");
                   lookups := reads |}
              else if isLocked now user then
                {| outcome := Respond (deny 423 "Account is temporarily locked.");
                   lookups := reads |}
              else {| outcome := Next (Some (fullContext user)); lookups := reads |}
          end
    end.

(** [adminMiddleware]: reads [req.user] and nothing else. *)
Definition adminMiddleware (reqUser : option IdentityContext) : Outcome :=
  match reqUser with
  | Some u =>
      if String.eqb (role u) "admin" || String.eqb (role u) "super_admin"
      then Next reqUser
      else Respond (deny 403 "Access denied. Admin privileges required.")
  | None => Respond (deny 403 "Access denied. Admin privileges required.")
  end.

(** [superAdminMiddleware] *)
Definition superAdminMiddleware (reqUser : option IdentityContext) : Outcome :=
  match reqUser with
  | Some u =>
      if String.eqb (role u) "super_admin"
      then Next reqUser
      else Respond (deny 403 "Access denied. Super admin privileges required.")
  | None => Respond (deny 403 "Access denied. Super admin privileges required.")
  end.

Definition optionalContext (user : User) : IdentityContext :=
  {| userId := Some (u_id user); email := Some (u_email user);
     name := Some (u_name user); role := u_role user;
     ctxStatus := None; preferences := None; isGuest := false |}.

(** [optionalAuthMiddleware]: every path, the [catch] block too, ends in
    [next()]. *)
Definition optionalAuthMiddleware (now : Z) (users : list User)
    (authHeader : option string) : Ran :=
  let token := bearerToken authHeader in
  if noToken token then {| outcome := Next None; lookups := [] |}
  else
    match jwtVerify (default "" token) with
    | Threw _ => {| outcome := Next None; lookups := [] |}
    | Returned decoded =>
        let reads := [tokUserId decoded] in
        match findById (tokUserId decoded) users with
        | Threw _ => {| outcome := Next None; lookups := reads |}
        | Returned (Some user) =>
            if String.eqb (u_status user) "active" && negb (isLocked now user)
            then {| outcome := Next (Some (optionalContext user)); lookups := reads |}
            else {| outcome := Next None; lookups := reads |}
        | Returned None => {| outcome := Next None; lookups := reads |}
        end
    end.

(** [router.use(authMiddleware); router.use(adminMiddleware)] at the head
    of every content router: the second gate runs when the first calls
    [next()]. *)
Definition adminRouteGate (now : Z) (users : list User)
    (authHeader : option string) : Outcome :=
  match outcome (authMiddleware now users authHeader) with
  | Next reqUser => adminMiddleware reqUser
  | Respond r => Respond r
  end.

End Gates.

(** ** Registration and login (routes/auth.js) *)

Record UserView := {
  v_id : string;
  v_name : string;
  v_email : string;
  v_role : string;
  v_status : string;
  v_avatar : option string;
  v_lastLogin : option Z;
}.

Record AuthData := { token : string; user : UserView }.

Record LoginBody := { l_email : option string; l_password : option string }.

Record RegisterBody := {
  r_name : option string;
  r_email : option string;
  r_password : option string;
  r_phone : option string;
  r_role : option string;
}.

(** express-validator reads an absent field as the empty string. *)
Definition fieldText (v : option string) : string := default "" v.

Definition check (ok : bool) (p m : string) : list FieldError :=
  if ok then [] else [{| param := p; msg := m |}].

Definition isIn (allowed : list string) (s : string) : bool :=
  existsb (String.eqb s) allowed.

Definition viewOf (u : User) : UserView :=
  {| v_id := u_id u; v_name := u_name u; v_email := u_email u;
     v_role := u_role u; v_status := u_status u; v_avatar := u_avatar u;
     v_lastLogin := u_lastLogin u |}.

Section AuthRoutes.
Context `{JsRuntime} `{Collaborators}.

(** [generateToken] *)
Definition generateToken (now : Z) (u : User) : string :=
  jwtSign {| tokUserId := Some (u_id u); tokRole := Some (u_role u);
             tokIsGuest := false |} now.

Definition validateLogin (b : LoginBody) : list FieldError :=
  check (isEmail (fieldText (l_email b))) "email" "Please provide a valid email"
  ++ check (negb (String.eqb (fieldText (l_password b)) "")) "password"
       "Password is required".

Definition validateRegister (b : RegisterBody) : list FieldError :=
  check (negb (String.eqb (fieldText (r_name b)) "")) "name" "Name is required"
  ++ check (isEmail (fieldText (r_email b))) "email" "Please provide a valid email"
  ++ check (6 <=? validatorLength (fieldText (r_password b))) "password"
       "Password must be at least 6 characters long"
  ++ match r_role b with
     | Some r => check (isIn ["user"; "admin"] r) "role" "Invalid role specified"
     | None => []
     end.

(** Modelled from the spec: [comparePassword] of models/User.js, which is
    not among the sources: the supplied password is verified against the
    stored "hashed password". *)
Definition comparePassword (u : User) (candidate : string) : bool :=
  bcryptCompare candidate (fieldText (u_password u)).

(** Modelled from the spec: the constructor and the save hook of
    models/User.js, which are not among the sources: a new Identity has the
    fields given, its password hashed, its email stored in lower case
    ("unique, case-insensitive"), and no failed attempt or lock. *)
Definition newUser (users : list User) (name email password : string)
    (phone : option string) (role : string) : User :=
  {| u_id := freshId users; u_name := name; u_email := toLowerCase email;
     u_password := Some (bcryptHash password); u_phone := phone;
     u_role := role; u_status := defaultStatus;
     u_loginAttempts := 0; u_lockUntil := None;
     u_lastLogin := None; u_lastActiveAt := None;
     u_avatar := None; u_preferences := None |}.

(** [POST /api/auth/register] *)
Definition register (now : Z) (users : list User) (b : RegisterBody)
    : Response AuthData * list User :=
  match validateRegister b with
  | (_ :: _) as es => (invalid es, users)
  | [] =>
      let name := fieldText (r_name b) in
      let email := normalizeEmail (fieldText (r_email b)) in
      let password := fieldText (r_password b) in
      let role := default "admin" (r_role b) in
      match findOneByEmail (toLowerCase email) users with
      | Some _ => (deny 409 "User already exists with this email", users)
      | None =>
          let user := newUser users name email password (r_phone b) role in
          let token := generateToken now user in
          let user := touchLogin now user in
          ({| status := 201; success := true;
              message := Some "User registered successfully";
              errors := None; error := None;
              data := Some {| token := token; user := viewOf user |} |},
           insertUser user users)
      end
  end.

(** [POST /api/auth/login] *)
Definition login (now : Z) (users : list User) (b : LoginBody)
    : Response AuthData * list User :=
  match validateLogin b with
  | (_ :: _) as es => (invalid es, users)
  | [] =>
      let email := normalizeEmail (fieldText (l_email b)) in
      let password := fieldText (l_password b) in
      match findOneByEmail (toLowerCase email) users with
      | None => (deny 401 "Invalid credentials", users)
      | Some user =>
          if negb (isIn ["admin"; "super_admin"] (u_role user)) then
            (deny 403 "Access denied. Admin privileges required.", users)
          else if isLocked now user then
            (deny 423
               "Account is temporarily locked due to too many failed login attempts.",
             users)
          else if negb (String.eqb (u_status user) "active") then
            (deny 403 "Your account is not active. Please contact support.", users)
          else if negb (comparePassword user password) then
            (deny 401 "Invalid credentials",
             updateUser (incLoginAttempts now user) users)
          else
            let token := generateToken now user in
            let user := touchActive now (touchLogin now (resetLoginAttempts user)) in
            ({| status := 200; success := true;
                message := Some "Login successful";
                errors := None; error := None;
                data := Some {| token := token; user := viewOf user |} |},
             updateUser user users)
      end
  end.

(** A sequence of login requests, each at its own time, against the store
    the one before it left. *)
Fixpoint loginAll (users : list User) (reqs : list (Z * LoginBody))
    : list (Response AuthData) * list User :=
  match reqs with
  | [] => ([], users)
  | (now, b) :: rest =>
      let '(r, users1) := login now users b in
      let '(rs, users2) := loginAll users1 rest in
      (r :: rs, users2)
  end.

End AuthRoutes.

(** ** Lists: filter, sort, skip, limit, count *)

(** How a handler ends: it answers, or it hands an error to the central
    handler with [next(error)]. *)
Inductive Handled (D : Type) : Type :=
  | Replied (r : Response D)
  | Forwarded (e : JsError).
Arguments Replied {D} r.
Arguments Forwarded {D} e.

(** [res.json({ success: true, data })] *)
Definition ok {D : Type} (d : D) : Response D :=
  {| status := 200; success := true; message := None;
     errors := None; error := None; data := Some d |}.

(** A collection of the document store: how a filter object selects, how
    [.sort({ [field]: direction })] orders, and what a cursor does with a
    skip or a limit that is not a natural number. *)
Class Collection (Doc Filter : Type) := {
  matches : Filter → Doc → bool;
  sortBy : string → Z → list Doc → list Doc;
  cursorRest : jsnum → jsnum → list Doc → Completion (list Doc);
}.

Record Pagination := {
  currentPage : jsnum;
  totalPages : jsnum;
  totalCount : Z;
}.

Section Cursor.
Context {Doc Filter : Type} `{Collection Doc Filter}.

(** [Model.find(q).sort(s).skip(k).limit(n)]; a limit of 0 is no limit. *)
Definition findPage (q : Filter) (field : string) (dir : Z) (skip limit : jsnum)
    (docs : list Doc) : Completion (list Doc) :=
  let sorted := sortBy field dir (List.filter (matches q) docs) in
  match jsToZ skip, jsToZ limit with
  | Some k, Some n =>
      if (0 <=? k) && (0 <=? n) then
        let rest := drop (Z.to_nat k) sorted in
        Returned (if n =? 0 then rest else take (Z.to_nat n) rest)
      else cursorRest skip limit sorted
  | _, _ => cursorRest skip limit sorted
  end.

(** [Model.countDocuments(q)] *)
Definition countDocuments (q : Filter) (docs : list Doc) : Z :=
  Z.of_nat (length (List.filter (matches q) docs)).

End Cursor.

(** [order === 'desc' ? -1 : 1] *)
Definition direction (order : string) : Z :=
  if String.eqb order "desc" then -1 else 1.

(** *** The news list (routes/news.js, [GET /]) *)

Record NewsQuery := {
  nq_page : option string;
  nq_limit : option string;
  nq_category : option string;
  nq_status : option string;
  nq_search : option string;
  nq_sort : option string;
  nq_order : option string;
}.

(** [queryOptions]: [status], [category], and the two-field [$or] of the
    search text. *)
Record NewsFilter := {
  nf_status : option string;
  nf_category : option string;
  nf_search : option string;
}.

Record NewsData (Article : Type) := {
  articles : list Article;
  newsPagination : Pagination;
}.
Arguments articles {Article} n.
Arguments newsPagination {Article} n.

(** [v && v !== 'all'] *)
Definition unlessAll (v : option string) : option string :=
  match v with
  | Some s => if truthy (VStr s) && negb (String.eqb s "all") then Some s else None
  | None => None
  end.

(** [if (search)] *)
Definition whenTruthy (v : option string) : option string :=
  match v with
  | Some s => if truthy (VStr s) then Some s else None
  | None => None
  end.

Section News.
Context `{JsRuntime} {Article : Type} `{Collection Article NewsFilter}.

Definition newsList (docs : list Article) (q : NewsQuery) : Handled (NewsData Article) :=
  let page := withDefault (ofQuery (nq_page q)) (VNum (num 1)) in
  let limit := withDefault (ofQuery (nq_limit q)) (VNum (num 20)) in
  let sort := default "createdAt" (nq_sort q) in
  let order := default "desc" (nq_order q) in
  let queryOptions :=
    {| nf_status := unlessAll (nq_status q);
       nf_category := unlessAll (nq_category q);
       nf_search := whenTruthy (nq_search q) |} in
  let skip := jmul (jsub (toNumber page) (num 1)) (toNumber limit) in
  match findPage queryOptions sort (direction order) skip (parseInt limit) docs with
  | Threw e => Forwarded e
  | Returned found =>
      let total := countDocuments queryOptions docs in
      Replied (ok {| articles := found;
                     newsPagination :=
                       {| currentPage := parseInt page;
                          totalPages := jceil (jdiv (num total) (toNumber limit));
                          totalCount := total |} |})
  end.

End News.

(** *** Feedback (models/Feedback.js, routes/feedback.js) *)

(** A stored feedback document; [rating] is [None] when the document has
    none (absent or null). *)
Record Feedback := {
  fb_id : string;
  feedback : string;
  rating : option jsnum;
  fb_user : option string;
  deviceInfo : option string;
  createdAt : Z;
}.

Record FeedbackFilter := {
  ff_rating : option jsnum;
  ff_feedback : option string;
}.

Record FeedbackQuery := {
  fq_page : option string;
  fq_limit : option string;
  fq_rating : option string;
  fq_sort : option string;
  fq_order : option string;
  fq_search : option string;
}.

(** The one group of [{ $group: { _id: null, ... } }]. *)
Record RatingGroup := {
  g_avgRating : option jsnum;
  g_count : Z;
  g_ratings : list (option jsnum);
}.

(** An object keyed by rating.  A property name is the decimal string of
    the number that indexes the object; distinct numbers print differently,
    so the map is keyed by the number. *)

Record FeedbackStats := {
  averageRating : jsval;
  totalFeedback : Z;
  ratingDistribution : gmap jsnum jsnum;
}.

Record FeedbackData := {
  feedbacks : list Feedback;
  feedbackPagination : Pagination;
  stats : FeedbackStats;
}.

(** validator.js [isInt(str, { min, max })]: an optional sign and decimal
    digits, within the bounds. *)
Definition isInt (min max : option Z) (s : string) : bool :=
  match signedDecimal s with
  | Some z =>
      match min with Some lo => lo <=? z | None => true end
      && match max with Some hi => z <=? hi | None => true end
  | None => false
  end.

(** [.optional()]: an absent field passes. *)
Definition optionally (f : string → bool) (v : option string) : bool :=
  match v with
  | Some s => f s
  | None => true
  end.

(** [.toInt()] *)
Definition toInt (v : option string) : jsval :=
  match v with
  | Some s => VNum (parseInt10 s)
  | None => VUndefined
  end.

Definition validateFeedbackQuery (q : FeedbackQuery) : list FieldError :=
  check (optionally (isInt (Some 1) None) (fq_page q)) "page" "Invalid value"
  ++ check (optionally (isInt (Some 1) (Some 100)) (fq_limit q)) "limit" "Invalid value"
  ++ check (optionally (isInt (Some 1) (Some 5)) (fq_rating q)) "rating" "Invalid value"
  ++ check (optionally (isIn ["createdAt"; "rating"; "feedback"]) (fq_sort q))
       "sort" "Invalid value"
  ++ check (optionally (isIn ["asc"; "desc"]) (fq_order q)) "order" "Invalid value".

(** [let ratingDistribution = { 1: 0, 2: 0, 3: 0, 4: 0, 5: 0 }] *)
Definition emptyDistribution : gmap jsnum jsnum :=
  <[num 1 := num 0]> (<[num 2 := num 0]> (<[num 3 := num 0]>
    (<[num 4 := num 0]> (<[num 5 := num 0]> ∅)))).

(** [o[k]++] stores [Number(o[k]) + 1]; a key that is not there reads as
    [undefined]. *)
Definition increment (old : option jsnum) : jsnum :=
  match old with
  | Some n => jadd n (num 1)
  | None => JNaN
  end.

(** [rating => { if (rating) ratingDistribution[rating]++; }] *)
Definition tally (h : gmap jsnum jsnum) (r : option jsnum) : gmap jsnum jsnum :=
  match r with
  | Some n => if numTruthy n then <[n := increment (h !! n)]> h else h
  | None => h
  end.

(** The histogram both feedback routes compute from the pushed ratings of
    the first group, when there is one. *)
Definition ratingHistogram (group : option RatingGroup) : gmap jsnum jsnum :=
  match group with
  | Some g => fold_left tally (g_ratings g) emptyDistribution
  | None => emptyDistribution
  end.

(** [$avg]: the mean of the numbers, [null] when there is none. *)
Definition average (docs : list Feedback) : option jsnum :=
  match omap rating docs with
  | [] => None
  | rs => Some (jdiv (fold_left jadd rs (num 0)) (num (Z.of_nat (length rs))))
  end.

(** [Feedback.aggregate([{ $group: { _id: null, avg, count, push } }])]: no
    document, no group. *)
Definition groupAll (docs : list Feedback) : list RatingGroup :=
  match docs with
  | [] => []
  | _ => [{| g_avgRating := average docs;
             g_count := Z.of_nat (length docs);
             g_ratings := rating <$> docs |}]
  end.

Section FeedbackRoutes.
Context `{JsRuntime} `{Collection Feedback FeedbackFilter}.

(** [stats[0]?.avgRating?.toFixed(2) || 0] *)
Definition shownAverage (group : option RatingGroup) : jsval :=
  match group ≫= g_avgRating with
  | Some a => if truthy (VStr (toFixed2 a)) then VStr (toFixed2 a) else VNum (num 0)
  | None => VNum (num 0)
  end.

(** [stats[0]?.totalFeedback || 0] *)
Definition shownCount (group : option RatingGroup) : Z :=
  match group with
  | Some g => g_count g
  | None => 0
  end.

(** [GET /api/feedback], the validators and [handleValidationErrors]
    included. *)
Definition feedbackList (docs : list Feedback) (q : FeedbackQuery) : Handled FeedbackData :=
  match validateFeedbackQuery q with
  | (_ :: _) as es => Replied (invalid es)
  | [] =>
      let page := withDefault (toInt (fq_page q)) (VNum (num 1)) in
      let limit := withDefault (toInt (fq_limit q)) (VNum (num 20)) in
      let rating := toInt (fq_rating q) in
      let sort := default "createdAt" (fq_sort q) in
      let order := default "desc" (fq_order q) in
      let query :=
        {| ff_rating := if truthy rating then Some (parseInt rating) else None;
           ff_feedback := whenTruthy (fq_search q) |} in
      let skip := jmul (jsub (toNumber page) (num 1)) (toNumber limit) in
      match findPage query sort (direction order) skip (parseInt limit) docs with
      | Threw e => Forwarded e
      | Returned found =>
          let total := countDocuments query docs in
          let group := head (groupAll docs) in
          Replied (ok {| feedbacks := found;
                         feedbackPagination :=
                           {| currentPage := parseInt page;
                              totalPages := jceil (jdiv (num total) (toNumber limit));
                              totalCount := total |};
                         stats :=
                           {| averageRating := shownAverage group;
                              totalFeedback := shownCount group;
                              ratingDistribution := ratingHistogram group |} |})
      end
  end.

End FeedbackRoutes.

(** *** The feedback summary ([GET /api/feedback/stats/summary]) *)

(** The date arithmetic of the summary and the day buckets of its trend:
    which documents [{ createdAt: { $gte: startDate } }] keeps when
    [startDate] is [parseInt(days)] days before now, and how the third
    pipeline groups them by day. *)
Class Calendar (Trend : Type) := {
  since : Z → jsnum → Feedback → bool;
  dailyTrend : list Feedback → list Trend;
}.

Record RecentStats := {
  recentCount : Z;
  recentAverage : jsval;
  recentDistribution : gmap jsnum jsnum;
}.

Record OverallStats := {
  overallCount : Z;
  overallAverage : jsval;
}.

Record SummaryData (Trend : Type) := {
  period : string;
  recent : RecentStats;
  overall : OverallStats;
  trend : list Trend;
}.
Arguments period {Trend} s.
Arguments recent {Trend} s.
Arguments overall {Trend} s.
Arguments trend {Trend} s.

Section Summary.
Context `{JsRuntime} {Trend : Type} `{Calendar Trend}.

(** [{ $match: { createdAt: { $gte: startDate } } }], with [days = 30] when
    the query gives none. *)
Definition recentWindow (now : Z) (days : option string) (docs : list Feedback)
    : list Feedback :=
  List.filter (since now (parseInt (withDefault (ofQuery days) (VNum (num 30))))) docs.

Definition feedbackSummary (now : Z) (docs : list Feedback) (days : option string)
    : Handled (SummaryData Trend) :=
  let window := recentWindow now days docs in
  let recentGroup := head (groupAll window) in
  let overallGroup := head (groupAll docs) in
  Replied (ok {| period := "Last " ++ default "30" days ++ " days";
                 recent :=
                   {| recentCount := shownCount recentGroup;
                      recentAverage := shownAverage recentGroup;
                      recentDistribution := ratingHistogram recentGroup |};
                 overall :=
                   {| overallCount := shownCount overallGroup;
                      overallAverage := shownAverage overallGroup |};
                 trend := dailyTrend window |}).

End Summary.

(** ** The vocabulary of the properties *)

(** A context is attached and its role is one of [roles]. *)
Definition hasRole (roles : list string) (reqUser : option IdentityContext) : bool :=
  match reqUser with
  | Some c => isIn roles (role c)
  | None => false
  end.

(** The four ways the auth gate finds no authenticated subject. *)
Inductive AuthFailure : Type :=
  | NoToken
  | InvalidToken
  | ExpiredToken
  | UserNotFound.

(** The message the auth gate writes for each. *)
Definition failureMessage (f : AuthFailure) : string :=
  match f with
  | NoToken => "Access denied. No token provided."
  | InvalidToken => "Invalid token."
  | ExpiredToken => "Token expired. Please login again."
  | UserNotFound => "Token is not valid. User not found."
  end.

(** The message of the 423 that [POST /login] answers a locked account
    with. *)
Definition lockedMessage : string :=
  "Account is temporarily locked due to too many failed login attempts.".

(** What an update of the lockout fields leaves alone. *)
Definition sameAccount (u0 u : User) : Prop :=
  u_id u = u_id u0 ∧ u_email u = u_email u0 ∧ u_password u = u_password u0
  ∧ u_role u = u_role u0 ∧ u_status u = u_status u0.

(** Locked at every time before [t]. *)
Definition lockedThrough (t : Z) (u : User) : Prop :=
  ∃ l, u_lockUntil u = Some l ∧ t ≤ l.

(** The least integer that is at least [a / b]. *)
Definition ceilDiv (a b : Z) : Z := - ((- a) / b).

(** How many of the pushed ratings are the number [z]. *)
Definition occurrences (z : Z) (rs : list (option jsnum)) : Z :=
  Z.of_nat (length (List.filter (fun r => bool_decide (r = Some (num z))) rs)).

(** Every rating from 1 to 5 is a key, and its value is the number of times
    it was seen: 0 when it was not. *)
Definition dense (h : gmap jsnum jsnum) (rs : list (option jsnum)) : Prop :=
  ∀ z, 1 ≤ z ≤ 5 → h !! num z = Some (num (occurrences z rs)).

(** A news query that gives a limit and a sort field at most. *)
Definition newsQuery (limit sort : option string) : NewsQuery :=
  {| nq_page := None; nq_limit := limit; nq_category := None; nq_status := None;
     nq_search := None; nq_sort := sort; nq_order := None |}.

(** The filter of a query that names no status, category or search text. *)
Definition everyArticle : NewsFilter :=
  {| nf_status := None; nf_category := None; nf_search := None |}.

(** A feedback query that gives a limit and a sort field at most. *)
Definition feedbackQuery (limit sort : option string) : FeedbackQuery :=
  {| fq_page := None; fq_limit := limit; fq_rating := None;
     fq_sort := sort; fq_order := None; fq_search := None |}.

(** Reads the fields of a query and applies the defaults, leaving the
    arithmetic as it stands. *)
Ltac read_query :=
  cbn [nq_page nq_limit nq_category nq_status nq_search nq_sort nq_order
       fq_page fq_limit fq_rating fq_sort fq_order fq_search
       ofQuery withDefault toNumber from_option id unlessAll whenTruthy];
  try change (direction "desc") with (-1).

Section Vocabulary.
Context `{JsRuntime} `{Collaborators}.

(** When each failure occurs, in terms of what the request carries, what
    the codec says of the token and what the store holds. *)
Definition occurs (f : AuthFailure) (users : list User) (authHeader : option string) : Prop :=
  match f with
  | NoToken => noToken (bearerToken authHeader) = true
  | InvalidToken =>
      ∃ token e, bearerToken authHeader = Some token ∧ token ≠ ""
        ∧ jwtVerify token = Threw e ∧ errName e = "JsonWebTokenError"
  | ExpiredToken =>
      ∃ token e, bearerToken authHeader = Some token ∧ token ≠ ""
        ∧ jwtVerify token = Threw e ∧ errName e = "TokenExpiredError"
  | UserNotFound =>
      ∃ token decoded, bearerToken authHeader = Some token ∧ token ≠ ""
        ∧ jwtVerify token = Returned decoded ∧ tokIsGuest decoded = false
        ∧ findById (tokUserId decoded) users = Returned None
  end.

(** The email a login looks the account up by. *)
Definition loginKey (b : LoginBody) : string :=
  toLowerCase (normalizeEmail (fieldText (l_email b))).

(** A login request for the account under [e], within the window that
    opens at [t1], whose password does not verify against [u0]. *)
Definition failingAttempt (e : string) (u0 : User) (t1 : Z) (req : Z * LoginBody) : Prop :=
  t1 ≤ fst req ∧ fst req < t1 + lockDuration
  ∧ validateLogin (snd req) = [] ∧ loginKey (snd req) = e
  ∧ comparePassword u0 (fieldText (l_password (snd req))) = false.

(** The account under [e] after [k] failing attempts on [u0]: it is locked
    until the window closes, or it has counted all [k] and is below the
    threshold. *)
Definition afterFailures (e : string) (u0 : User) (t1 : Z) (k : Z)
    (users : list User) : Prop :=
  ∃ u, findOneByEmail e users = Some u ∧ sameAccount u0 u
    ∧ (lockedThrough (t1 + lockDuration) u
       ∨ (u_lockUntil u = u_lockUntil u0
          ∧ u_loginAttempts u = u_loginAttempts u0 + k
          ∧ (k = 0 ∨ u_loginAttempts u0 + k < lockThreshold))).

(** The filter the feedback list builds from a query. *)
Definition feedbackFilter (q : FeedbackQuery) : FeedbackFilter :=
  {| ff_rating :=
       if truthy (toInt (fq_rating q)) then Some (parseInt (toInt (fq_rating q)))
       else None;
     ff_feedback := whenTruthy (fq_search q) |}.

End Vocabulary.

(** ** Concrete collaborators, for the examples *)

Definition demoRuntime : JsRuntime :=
  {| stringToNumberRest := fun _ => JNaN;
     parseIntOfNumberRest := fun n => n;
     toLowerCase := fun s => s;
     toFixed2 := fun _ => "0.00" |}.

(** A token codec whose tokens are readable: three distinguished tokens,
    and any other token names its subject. *)
Definition demoVerify (t : string) : Completion TokenPayload :=
  if String.eqb t "expired" then
    Threw {| errName := "TokenExpiredError"; errMessage := "jwt expired" |}
  else if String.eqb t "forged" then
    Threw {| errName := "JsonWebTokenError"; errMessage := "invalid signature" |}
  else if String.eqb t "guest" then
    Returned {| tokUserId := Some "guest-1"; tokRole := None; tokIsGuest := true |}
  else Returned {| tokUserId := Some t; tokRole := Some "admin"; tokIsGuest := false |}.

Definition demoCollaborators : Collaborators :=
  {| jwtVerify := demoVerify;
     jwtSign := fun p _ => default "" (tokUserId p);
     bcryptHash := fun s => s;
     bcryptCompare := String.eqb;
     isEmail := fun s => negb (String.eqb s "");
     normalizeEmail := fun s => s;
     findByIdFault := fun _ => None;
     freshId := fun users => "id-new";
     defaultStatus := "active";
     development := false |}.

(** A token codec that reads back every payload it signed: a token spells
    its payload out, a text as its length in strokes, a full stop and the
    text. *)
Fixpoint strokes (n : nat) (rest : string) : string :=
  match n with
  | O => String "." rest
  | S n' => String "1" (strokes n' rest)
  end.

Fixpoint readStrokes (s : string) : option (nat * string) :=
  match s with
  | String c r =>
      if Ascii.eqb c "." then Some (O, r)
      else if Ascii.eqb c "1" then
        match readStrokes r with
        | Some (n, r') => Some (S n, r')
        | None => None
        end
      else None
  | EmptyString => None
  end.

Fixpoint splitAt (n : nat) (s : string) : option (string * string) :=
  match n with
  | O => Some (EmptyString, s)
  | S n' =>
      match s with
      | String c r =>
          match splitAt n' r with
          | Some (a, b) => Some (String c a, b)
          | None => None
          end
      | EmptyString => None
      end
  end.

Definition writeField (v : option string) (rest : string) : string :=
  match v with
  | Some t => String "s" (strokes (String.length t) (t +:+ rest))
  | None => String "n" rest
  end.

Definition readField (s : string) : option (option string * string) :=
  match s with
  | String c r =>
      if Ascii.eqb c "n" then Some (None, r)
      else if Ascii.eqb c "s" then
        match readStrokes r with
        | Some (n, r') =>
            match splitAt n r' with
            | Some (t, rest) => Some (Some t, rest)
            | None => None
            end
        | None => None
        end
      else None
  | EmptyString => None
  end.

Definition spellToken (p : TokenPayload) : string :=
  String (if tokIsGuest p then "g" else "u")
    (writeField (tokUserId p) (writeField (tokRole p) EmptyString)).

Definition readToken (t : string) : Completion TokenPayload :=
  let forged := Threw {| errName := "JsonWebTokenError"; errMessage := "jwt malformed" |} in
  match t with
  | String c r =>
      match readField r with
      | Some (id, r') =>
          match readField r' with
          | Some (rl, EmptyString) =>
              if Ascii.eqb c "g"
              then Returned {| tokUserId := id; tokRole := rl; tokIsGuest := true |}
              else if Ascii.eqb c "u"
              then Returned {| tokUserId := id; tokRole := rl; tokIsGuest := false |}
              else forged
          | _ => forged
          end
      | None => forged
      end
  | EmptyString => forged
  end.

Definition spelledTokens : Collaborators :=
  {| jwtVerify := readToken;
     jwtSign := fun p _ => spellToken p;
     bcryptHash := fun s => s;
     bcryptCompare := String.eqb;
     isEmail := fun s => negb (String.eqb s "");
     normalizeEmail := fun s => s;
     findByIdFault := fun _ => None;
     freshId := fun users => "id-new";
     defaultStatus := "active";
     development := false |}.

Definition demoAccount (id mail pw r st : string) (attempts : Z) (lock : option Z) : User :=
  {| u_id := id; u_name := "Alice"; u_email := mail; u_password := Some pw;
     u_phone := None; u_role := r; u_status := st;
     u_loginAttempts := attempts; u_lockUntil := lock;
     u_lastLogin := None; u_lastActiveAt := None;
     u_avatar := None; u_preferences := None |}.

Definition demoFeedbackStore : Collection Feedback FeedbackFilter :=
  {| matches := fun _ _ => true;
     sortBy := fun _ _ docs => docs;
     cursorRest := fun _ _ _ =>
       Threw {| errName := "MongoServerError"; errMessage := "bad cursor" |} |}.

Definition demoCalendar : Calendar string :=
  {| since := fun now days d =>
       match jsToZ days with
       | Some n => now - n * 86400000 <=? createdAt d
       | None => false
       end;
     dailyTrend := fun _ => [] |}.

(** A collection of numbered articles, kept in insertion order. *)
Definition demoArticles : Collection nat NewsFilter :=
  {| matches := fun _ _ => true;
     sortBy := fun _ _ docs => docs;
     cursorRest := fun _ _ _ =>
       Threw {| errName := "MongoServerError"; errMessage := "bad cursor" |} |}.

Definition alice : User :=
  demoAccount "a1" "alice@example.com" "secret1" "admin" "active" 0 None.

(** An account of role user whose lock runs until time 1000. *)
Definition bob : User :=
  demoAccount "b1" "bob@example.com" "secret1" "user" "active" 5 (Some 1000).

Definition asAlice (pw : string) : LoginBody :=
  {| l_email := Some "alice@example.com"; l_password := Some pw |}.

Definition fiveWrong : list (Z * LoginBody) :=
  [(1, asAlice "wrong1"); (2, asAlice "wrong2"); (3, asAlice "wrong3");
   (4, asAlice "wrong4"); (5, asAlice "wrong5")].

Definition demoFeedback (id : string) (r : option Z) (at_ : Z) : Feedback :=
  {| fb_id := id; feedback := "fine"; rating := num <$> r; fb_user := None;
     deviceInfo := None; createdAt := at_ |}.

Definition threeFeedbacks : list Feedback :=
  [demoFeedback "f1" (Some 5) 10; demoFeedback "f2" None 20;
   demoFeedback "f3" (Some 5) 30].

(** ** The rest of the auth routes, the user administration and the seed *)

Record ChangePasswordBody := {
  cp_oldPassword : option string;
  cp_newPassword : option string;
}.

Record ProfileData := {
  pr_id : string;
  pr_name : string;
  pr_email : string;
  pr_role : string;
  pr_status : string;
}.

(** [user.password = hash], the other fields as they are. *)
Definition withPassword (hash : string) (u : User) : User :=
  {| u_id := u_id u; u_name := u_name u; u_email := u_email u;
     u_password := Some hash; u_phone := u_phone u; u_role := u_role u;
     u_status := u_status u; u_loginAttempts := u_loginAttempts u;
     u_lockUntil := u_lockUntil u;
     u_lastLogin := u_lastLogin u; u_lastActiveAt := u_lastActiveAt u;
     u_avatar := u_avatar u; u_preferences := u_preferences u |}.

(** [{ status }] written over a document. *)
Definition withStatus (st : string) (u : User) : User :=
  {| u_id := u_id u; u_name := u_name u; u_email := u_email u;
     u_password := u_password u; u_phone := u_phone u; u_role := u_role u;
     u_status := st; u_loginAttempts := u_loginAttempts u;
     u_lockUntil := u_lockUntil u;
     u_lastLogin := u_lastLogin u; u_lastActiveAt := u_lastActiveAt u;
     u_avatar := u_avatar u; u_preferences := u_preferences u |}.

(** [res.json({ success: true, message: m })] and
    [res.json({ success: true, message: m, data })] *)
Definition done200 {D : Type} (m : string) (d : option D) : Response D :=
  {| status := 200; success := true; message := Some m;
     errors := None; error := None; data := d |}.

Definition adminEmail : string := "admin@abhaya.com".
Definition defaultPassword : string := "admin123".

Section MoreAuthRoutes.
Context `{JsRuntime} `{Collaborators}.

(** [User.findById(id)], with the password when it is asked for
    ([.select('+password')]); an absent id finds nothing. *)
Definition findByIdFull (id : option string) (users : list User)
    : Completion (option User) :=
  match findByIdFault id with
  | Some e => Threw e
  | None => Returned (id ≫= fun i => lookupById i users)
  end.

Definition validateChangePassword (b : ChangePasswordBody) : list FieldError :=
  check (negb (String.eqb (fieldText (cp_oldPassword b)) "")) "oldPassword"
    "Old password is required"
  ++ check (6 <=? validatorLength (fieldText (cp_newPassword b)))
       "newPassword" "New password must be at least 6 characters long".

(** [POST /api/auth/change-password], behind the auth gate, which attached
    [reqUser].  The new password is stored hashed: the handler assigns it
    and saves, and the save hook of the model hashes it, as the handler's
    comment says. *)
Definition changePassword (users : list User) (reqUser : IdentityContext)
    (b : ChangePasswordBody) : Handled unit * list User :=
  match validateChangePassword b with
  | (_ :: _) as es => (Replied (invalid es), users)
  | [] =>
      match findByIdFull (userId reqUser) users with
      | Threw e => (Forwarded e, users)
      | Returned None => (Replied (deny 404 "User not found"), users)
      | Returned (Some user) =>
          if negb (comparePassword user (fieldText (cp_oldPassword b))) then
            (Replied (deny 401 "Old password is incorrect"), users)
          else
            (Replied (done200 "Password changed successfully" None),
             updateUser
               (withPassword (bcryptHash (fieldText (cp_newPassword b))) user)
               users)
      end
  end.

(** [PUT /api/admin/users/:id/status]:
    [User.findByIdAndUpdate(id, { status }, { new: true }).select('-password')]. *)
Definition updateUserStatus (users : list User) (id : string)
    (newStatus : option string) : Handled User * list User :=
  match check (isIn ["active"; "inactive"; "suspended"] (fieldText newStatus))
          "status" "Invalid status value" with
  | (_ :: _) as es => (Replied (invalid es), users)
  | [] =>
      match findByIdFull (Some id) users with
      | Threw e => (Forwarded e, users)
      | Returned None => (Replied (deny 404 "User not found"), users)
      | Returned (Some user) =>
          let user := withStatus (fieldText newStatus) user in
          (Replied (done200 "User status updated successfully"
                      (Some (withoutPassword user))),
           updateUser user users)
      end
  end.

(** [GET /api/admin/profile].  The handler looks the admin up by
    [req.user._id]; the contexts the auth gate attaches have the keys
    [userId], [email], [name], [role], [status], [preferences] and
    [isGuest], so [_id] reads as [undefined] whatever [reqUser] is. *)
Definition adminProfile (users : list User) (reqUser : IdentityContext)
    : Handled ProfileData :=
  match findById None users with
  | Threw e => Forwarded e
  | Returned None => Replied (deny 404 "Admin not found")
  | Returned (Some admin) =>
      Replied (ok {| pr_id := u_id admin; pr_name := u_name admin;
                     pr_email := u_email admin; pr_role := u_role admin;
                     pr_status := u_status admin |})
  end.

(** [new User({ name: 'Admin User', email, password, role: 'admin',
    status: 'active', emailVerified: true })]; the verified flag is not a
    field of the account record here. *)
Definition newAdmin (users : list User) : User :=
  withStatus "active" (newUser users "Admin User" adminEmail defaultPassword None "admin").

(** [admin.password = defaultPassword; admin.loginAttempts = 0;
    admin.lockUntil = undefined; await admin.save()] *)
Definition resetAdmin (admin : User) : User :=
  withPassword (bcryptHash defaultPassword) (setLockout 0 None admin).

(** [seedAdminUser], run when the store connects, at time [now]: what it
    leaves in the users collection. *)
Definition seedAdminUser (now : Z) (users : list User) : list User :=
  match findOneByEmail adminEmail users with
  | None => insertUser (newAdmin users) users
  | Some admin =>
      if negb (bcryptCompare defaultPassword (fieldText (u_password admin)))
         || isLocked now admin || (0 <? u_loginAttempts admin)
      then updateUser (resetAdmin admin) users
      else users
  end.

End MoreAuthRoutes.

(** An account under the admin address that has a password of its own and
    is locked until time 7200005. *)
Definition lockedAdmin : User :=
  demoAccount "s1" "admin@abhaya.com" "changed" "admin" "active" 5 (Some 7200005).

(** ** Pages of the news list *)

(** What [order === 'desc' ? -1 : 1] and the defaults make of a query's
    sort parameters. *)
Definition newsSortField (q : NewsQuery) : string := default "createdAt" (nq_sort q).
Definition newsDirection (q : NewsQuery) : Z := direction (default "desc" (nq_order q)).

(** [queryOptions] of the news list. *)
Definition newsFilter (q : NewsQuery) : NewsFilter :=
  {| nf_status := unlessAll (nq_status q);
     nf_category := unlessAll (nq_category q);
     nf_search := whenTruthy (nq_search q) |}.

(** The same query for another page. *)
Definition atPage (p : string) (q : NewsQuery) : NewsQuery :=
  {| nq_page := Some p; nq_limit := nq_limit q; nq_category := nq_category q;
     nq_status := nq_status q; nq_search := nq_search q; nq_sort := nq_sort q;
     nq_order := nq_order q |}.

(** The articles of an answer; none when there is no list in it. *)
Definition pageArticles {Article : Type} (h : Handled (NewsData Article)) : list Article :=
  match h with
  | Replied r =>
      match data r with
      | Some d => articles d
      | None => []
      end
  | Forwarded _ => []
  end.

Section NewsMatches.
Context {Article : Type} `{Collection Article NewsFilter}.

(** Everything a news query matches, in the order it asks for. *)
Definition newsMatches (q : NewsQuery) (docs : list Article) : list Article :=
  sortBy (newsSortField q) (newsDirection q) (List.filter (matches (newsFilter q)) docs).

End NewsMatches.

(** ** The users list ([GET /api/admin/users]) *)

(** validator.js [escape], which replaces the characters HTML reads as
    markup. *)
Class Sanitizer := { escapeHtml : string → string }.

Record UserQuery := {
  uq_page : option string;
  uq_limit : option string;
  uq_role : option string;
  uq_status : option string;
  uq_search : option string;
  uq_sort : option string;
  uq_order : option string;
}.

(** [query]: [role], [status], and the two-field [$or] of the search
    text. *)
Record UserFilter := {
  uf_role : option string;
  uf_status : option string;
  uf_search : option string;
}.

Record UsersPagination := {
  up_currentPage : jsval;
  up_totalPages : jsnum;
  up_totalUsers : Z;
}.

Record UsersData := {
  users : list User;
  usersPagination : UsersPagination;
}.

Definition validateUserQuery (q : UserQuery) : list FieldError :=
  check (optionally (isInt (Some 1) None) (uq_page q)) "page" "Invalid value"
  ++ check (optionally (isInt (Some 1) (Some 100)) (uq_limit q)) "limit" "Invalid value"
  ++ check (optionally (isIn ["user"; "admin"; "super_admin"]) (uq_role q))
       "role" "Invalid value"
  ++ check (optionally (isIn ["active"; "inactive"; "suspended"]) (uq_status q))
       "status" "Invalid value".

Section UsersList.
Context `{JsRuntime} `{Sanitizer} `{Collection User UserFilter}.

(** [.optional().trim().escape()] *)
Definition sanitizeSearch (v : option string) : option string :=
  (fun s => escapeHtml (trimEnd (trimStart s))) <$> v.

Definition usersList (docs : list User) (q : UserQuery) : Handled UsersData :=
  match validateUserQuery q with
  | (_ :: _) as es => Replied (invalid es)
  | [] =>
      let page := withDefault (toInt (uq_page q)) (VNum (num 1)) in
      let limit := withDefault (toInt (uq_limit q)) (VNum (num 20)) in
      let sort := default "createdAt" (uq_sort q) in
      let order := default "desc" (uq_order q) in
      let query :=
        {| uf_role := whenTruthy (uq_role q);
           uf_status := whenTruthy (uq_status q);
           uf_search := whenTruthy (sanitizeSearch (uq_search q)) |} in
      let skip := jmul (jsub (toNumber page) (num 1)) (toNumber limit) in
      match findPage query sort (direction order) skip (toNumber limit) docs with
      | Threw e => Forwarded e
      | Returned found =>
          let total := countDocuments query docs in
          Replied (ok {| users := withoutPassword <$> found;
                         usersPagination :=
                           {| up_currentPage := page;
                              up_totalPages := jceil (jdiv (num total) (toNumber limit));
                              up_totalUsers := total |} |})
      end
  end.

End UsersList.

Definition demoSanitizer : Sanitizer := {| escapeHtml := fun s => s |}.

Definition demoUsers : Collection User UserFilter :=
  {| matches := fun f u =>
       match uf_role f with
       | Some r => String.eqb (u_role u) r
       | None => true
       end;
     sortBy := fun _ _ docs => docs;
     cursorRest := fun _ _ _ =>
       Threw {| errName := "MongoServerError"; errMessage := "bad cursor" |} |}.

(** ** Documents by id: the single-article routes, the bulk delete and the
       single-feedback routes *)

(** Ids as the driver and the validators read them:
    [mongoose.Types.ObjectId.isValid], validator.js [isMongoId], and the
    cast of an id in a query, which gives the id as the store writes it or
    throws a CastError. *)
Class ObjectIds := {
  isValidObjectId : string → bool;
  isMongoId : string → bool;
  castObjectId : string → Completion string;
}.

(** The [_id] of a document, as the store writes it. *)
Class Keyed (Doc : Type) := { docId : Doc → string }.

#[global] Instance feedback_keyed : Keyed Feedback := {| docId := fb_id |}.

Section ById.
Context `{ObjectIds} {Doc : Type} `{Keyed Doc}.

Definition hasId (o : string) (d : Doc) : bool := String.eqb (docId d) o.

(** [Model.findById(id)] *)
Definition findDoc (id : string) (docs : list Doc) : Completion (option Doc) :=
  match castObjectId id with
  | Threw e => Threw e
  | Returned o => Returned (List.find (hasId o) docs)
  end.

(** The collection without its first document of id [o]. *)
Fixpoint removeDoc (o : string) (docs : list Doc) : list Doc :=
  match docs with
  | [] => []
  | d :: rest => if hasId o d then rest else d :: removeDoc o rest
  end.

(** The casts of the ids of [{ _id: { $in: ids } }], or the first
    CastError. *)
Fixpoint castAll (ids : list string) : Completion (list string) :=
  match ids with
  | [] => Returned []
  | id :: rest =>
      match castObjectId id with
      | Threw e => Threw e
      | Returned o =>
          match castAll rest with
          | Threw e => Threw e
          | Returned os => Returned (o :: os)
          end
      end
  end.

(** What [Model.deleteMany({ _id: { $in: ids } })] leaves. *)
Definition withoutIds (os : list string) (docs : list Doc) : list Doc :=
  List.filter (fun d => negb (isIn os (docId d))) docs.

(** [GET /api/news/:id] *)
Definition getArticle (docs : list Doc) (id : string) : Handled Doc :=
  if negb (isValidObjectId id) then Replied (deny 400 "Invalid news ID")
  else
    match findDoc id docs with
    | Threw e => Forwarded e
    | Returned None => Replied (deny 404 "News article not found")
    | Returned (Some article) => Replied (ok article)
    end.

(** [DELETE /api/news/:id]; the answer names the id as the request gave
    it. *)
Definition deleteArticle (docs : list Doc) (id : string) : Handled string * list Doc :=
  if negb (isValidObjectId id) then (Replied (deny 400 "Invalid news ID"), docs)
  else
    match castObjectId id with
    | Threw e => (Forwarded e, docs)
    | Returned o =>
        match List.find (hasId o) docs with
        | None => (Replied (deny 404 "News article not found"), docs)
        | Some _ =>
            (Replied (done200 "Article deleted successfully" (Some id)),
             removeDoc o docs)
        end
    end.

(** The validators of the bulk delete: [body('ids').isArray()] and
    [body('ids.*').isMongoId()].  [ids] is [None] when the body has no
    array under that key. *)
Definition validateIds (ids : option (list string)) : list FieldError :=
  match ids with
  | None => [{| param := "ids"; msg := "IDs must be an array" |}]
  | Some l =>
      mjoin (imap (fun i id =>
                     check (isMongoId id) ("ids[" ++ pretty i ++ "]")
                       "Invalid article ID in array") l)
  end.

(** [POST /api/news/bulk-delete]; the answer carries the number of
    documents deleted. *)
Definition bulkDeleteArticles (docs : list Doc) (ids : option (list string))
    : Handled Z * list Doc :=
  match validateIds ids with
  | (_ :: _) as es => (Replied (invalid es), docs)
  | [] =>
      match castAll (default [] ids) with
      | Threw e => (Forwarded e, docs)
      | Returned os =>
          let left := withoutIds os docs in
          let deletedCount := Z.of_nat (length docs) - Z.of_nat (length left) in
          (Replied (done200 (pretty deletedCount ++ " article(s) deleted successfully")
                      (Some deletedCount)),
           left)
      end
  end.

End ById.

Section FeedbackById.
Context `{ObjectIds}.

(** [GET /api/feedback/:id]: no check of the id before the store reads
    it. *)
Definition getFeedback (docs : list Feedback) (id : string) : Handled Feedback :=
  match findDoc id docs with
  | Threw e => Forwarded e
  | Returned None => Replied (deny 404 "Feedback not found")
  | Returned (Some f) => Replied (ok f)
  end.

(** [DELETE /api/feedback/:id] *)
Definition deleteFeedback (docs : list Feedback) (id : string)
    : Handled string * list Feedback :=
  match castObjectId id with
  | Threw e => (Forwarded e, docs)
  | Returned o =>
      match List.find (hasId o) docs with
      | None => (Replied (deny 404 "Feedback not found"), docs)
      | Some _ =>
          (Replied (done200 "Feedback deleted successfully" (Some id)),
           removeDoc o docs)
      end
  end.

End FeedbackById.

(** Ids of four characters, for the examples: every such string is an id,
    and the store writes it as it is. *)
Definition demoObjectIds : ObjectIds :=
  {| isValidObjectId := fun s => Nat.eqb (String.length s) 4;
     isMongoId := fun s => Nat.eqb (String.length s) 4;
     castObjectId := fun s =>
       if Nat.eqb (String.length s) 4 then Returned s
       else Threw {| errName := "CastError"; errMessage := "Cast to ObjectId failed" |} |}.

Record DemoArticle := { da_id : string; da_title : string }.

#[global] Instance demo_article_keyed : Keyed DemoArticle := {| docId := da_id |}.

Definition threeArticles : list DemoArticle :=
  [{| da_id := "n001"; da_title := "one" |};
   {| da_id := "n002"; da_title := "two" |};
   {| da_id := "n003"; da_title := "three" |}].

Definition fourFeedbacks : list Feedback :=
  [demoFeedback "f001" (Some 5) 10; demoFeedback "f002" None 20;
   demoFeedback "f003" (Some 5) 30; demoFeedback "f004" (Some 1) 40].

(** ** The YouTube id of a URL (routes/videos.js)

    The helper matches the URL against one regular expression and answers
    with its first group.  The expression has no flag, so it works on the
    UTF-16 code units of the string, which are numbers here. *)

(** The code units of a text of ASCII, which are its bytes. *)
Definition units (s : string) : list N := N_of_ascii <$> list_ascii_of_string s.

(** The part of the regular-expression language the pattern is written in.
    The starred, plussed and counted items of the pattern are all character
    classes, and it has one group. *)
Inductive regex :=
  | Lit (l : list N)
  | Cls (p : N → bool)
  | Seq (a b : regex)
  | Alt (a b : regex)
  | Opt (a : regex)
  | Star (p : N → bool)
  | Plus (p : N → bool)
  | Rep (n : nat) (p : N → bool)
  | Group (a : regex).

(** [.]: any code unit but a line terminator. *)
Definition dot (c : N) : bool :=
  negb (N.eqb c 10 || N.eqb c 13 || N.eqb c 8232 || N.eqb c 8233)%N.

(** [\s]: the white space and the line terminators of the language. *)
Definition whiteSpace (c : N) : bool :=
  (N.eqb c 9 || N.eqb c 10 || N.eqb c 11 || N.eqb c 12 || N.eqb c 13
   || N.eqb c 32 || N.eqb c 160 || N.eqb c 5760
   || (N.leb 8192 c && N.leb c 8202)
   || N.eqb c 8232 || N.eqb c 8233 || N.eqb c 8239 || N.eqb c 8287
   || N.eqb c 12288 || N.eqb c 65279)%N.

(** [[^\/]] *)
Definition notSlash (c : N) : bool := negb (N.eqb c 47).

(** [[?&]] *)
Definition queryMark (c : N) : bool := (N.eqb c 63 || N.eqb c 38)%N.

(** The class of the group: any code unit but a double quote, [&], [?],
    [/] and white space. *)
Definition idChar (c : N) : bool :=
  negb (N.eqb c 34 || N.eqb c 38 || N.eqb c 63 || N.eqb c 47 || whiteSpace c)%N.

(** The expression of the helper: [youtube\.com\/] and then one of
    [[^\/]+\/.+\/], [(?:v|e(?:mbed)?)\/] and [.*[?&]v=], or else
    [youtu\.be\/]; and then the group, eleven characters of its class. *)
Definition pattern : regex :=
  Seq (Alt (Seq (Lit (units "youtube.com/"))
              (Alt (Seq (Plus notSlash)
                      (Seq (Lit (units "/")) (Seq (Plus dot) (Lit (units "/")))))
                 (Alt (Seq (Alt (Lit (units "v"))
                              (Seq (Lit (units "e")) (Opt (Lit (units "mbed")))))
                         (Lit (units "/")))
                    (Seq (Star dot) (Seq (Cls queryMark) (Lit (units "v=")))))))
         (Lit (units "youtu.be/")))
      (Group (Rep 11 idChar)).

Definition patterns : list regex := [pattern].

Fixpoint stripPrefix (l s : list N) : option (list N) :=
  match l with
  | [] => Some s
  | a :: l' =>
      match s with
      | c :: s' => if N.eqb a c then stripPrefix l' s' else None
      | [] => None
      end
  end.

(** A backtracking matcher, as the language defines one: an item is matched
    at the front of what is left of the input and hands the rest, with the
    group seen so far, to its continuation; when the continuation fails the
    item gives its next choice.  A star takes as many characters as it can
    first, an alternative tries its left side first. *)
Section Matcher.
Context {R : Type}.

Fixpoint matchStar (p : N → bool) (k : list N → option R) (s : list N) : option R :=
  match s with
  | c :: s' =>
      if p c then
        match matchStar p k s' with
        | Some x => Some x
        | None => k s
        end
      else k s
  | [] => k []
  end.

Fixpoint matchRep (n : nat) (p : N → bool) (k : list N → option R) (s : list N)
    : option R :=
  match n with
  | O => k s
  | S n' =>
      match s with
      | c :: s' => if p c then matchRep n' p k s' else None
      | [] => None
      end
  end.

Fixpoint matchAt (r : regex) (s : list N) (group : option (list N))
    (k : list N → option (list N) → option R) : option R :=
  match r with
  | Lit l =>
      match stripPrefix l s with
      | Some s' => k s' group
      | None => None
      end
  | Cls p =>
      match s with
      | c :: s' => if p c then k s' group else None
      | [] => None
      end
  | Seq a b => matchAt a s group (fun s' g => matchAt b s' g k)
  | Alt a b =>
      match matchAt a s group k with
      | Some x => Some x
      | None => matchAt b s group k
      end
  | Opt a =>
      match matchAt a s group k with
      | Some x => Some x
      | None => k s group
      end
  | Star p => matchStar p (fun s' => k s' group) s
  | Plus p =>
      match s with
      | c :: s' => if p c then matchStar p (fun s' => k s' group) s' else None
      | [] => None
      end
  | Rep n p => matchRep n p (fun s' => k s' group) s
  | Group a =>
      matchAt a s group
        (fun s' _ => k s' (Some (take (length s - length s') s)))
  end.

End Matcher.

(** [url.match(pattern)] of an expression without the global flag: the
    leftmost place of the string the expression matches at; the result is
    the group of the match, which is [None] for a group that took no part. *)
Fixpoint search (r : regex) (s : list N) : option (option (list N)) :=
  match matchAt r s None (fun _ g => Some g) with
  | Some g => Some g
  | None =>
      match s with
      | [] => None
      | _ :: s' => search r s'
      end
  end.

(** What the helper returns: [null], the [undefined] of a group that took
    no part, or the id. *)
Inductive Extracted :=
  | NoMatch
  | NoGroup
  | YouTubeId (id : list N).

Fixpoint extractFrom (ps : list regex) (url : list N) : Extracted :=
  match ps with
  | [] => NoMatch
  | p :: ps' =>
      match search p url with
      | Some (Some id) => YouTubeId id
      | Some None => NoGroup
      | None => extractFrom ps' url
      end
  end.

Definition extractYouTubeId (url : list N) : Extracted := extractFrom patterns url.

(** ** Properties of the gates *)

Lemma isIn_elem_of (roles : list string) (s : string) :
  isIn roles s = true ↔ s ∈ roles.
Proof.
  unfold isIn. rewrite existsb_exists. split.
  - intros (x & Hx & He). apply String.eqb_eq in He. subst x.
    by apply list_elem_of_In.
  - intros Hin. exists s. split; [by apply list_elem_of_In|apply String.eqb_refl].
Qed.

Lemma hasRole_spec (roles : list string) (reqUser : option IdentityContext) :
  hasRole roles reqUser = true ↔ ∃ c, reqUser = Some c ∧ role c ∈ roles.
Proof.
  destruct reqUser as [c|]; simpl.
  - rewrite isIn_elem_of. split; [eauto|]. by intros (c' & [= <-] & Hin).
  - split; [done|]. by intros (c' & [=] & _).
Qed.

Lemma adminMiddleware_cases (reqUser : option IdentityContext) :
  adminMiddleware reqUser =
    if hasRole ["admin"; "super_admin"] reqUser then Next reqUser
    else Respond (deny 403 "Access denied. Admin privileges required.").
Proof.
  destruct reqUser as [c|]; [|reflexivity]. simpl.
  by rewrite orb_false_r.
Qed.

Lemma superAdminMiddleware_cases (reqUser : option IdentityContext) :
  superAdminMiddleware reqUser =
    if hasRole ["super_admin"] reqUser then Next reqUser
    else Respond (deny 403 "Access denied. Super admin privileges required.").
Proof.
  destruct reqUser as [c|]; [|reflexivity]. simpl.
  by rewrite orb_false_r.
Qed.

(** C7. The role gates decide on the role of the attached context and on
    nothing else (they take no store): the admin gate calls [next()]
    exactly when a context is attached whose role is admin or super_admin,
    the super-admin gate exactly when it is super_admin, and each answers
    403 in every other case. *)
Theorem role_gate_decides_on_role (reqUser : option IdentityContext) :
  (adminMiddleware reqUser = Next reqUser
     ↔ ∃ c, reqUser = Some c ∧ role c ∈ ["admin"; "super_admin"])
  ∧ (adminMiddleware reqUser
       = Respond (deny 403 "Access denied. Admin privileges required.")
     ↔ ¬ ∃ c, reqUser = Some c ∧ role c ∈ ["admin"; "super_admin"])
  ∧ (superAdminMiddleware reqUser = Next reqUser
     ↔ ∃ c, reqUser = Some c ∧ role c ∈ ["super_admin"])
  ∧ (superAdminMiddleware reqUser
       = Respond (deny 403 "Access denied. Super admin privileges required.")
     ↔ ¬ ∃ c, reqUser = Some c ∧ role c ∈ ["super_admin"]).
Proof.
  rewrite adminMiddleware_cases, superAdminMiddleware_cases.
  rewrite <- !hasRole_spec.
  destruct (hasRole ["admin"; "super_admin"] reqUser);
    destruct (hasRole ["super_admin"] reqUser);
    repeat split; intros; congruence.
Qed.

Lemma noToken_false (authHeader : option string) :
  noToken (bearerToken authHeader) = false
  ↔ ∃ token, bearerToken authHeader = Some token ∧ token ≠ "".
Proof.
  destruct (bearerToken authHeader) as [t|]; simpl; split.
  - rewrite negb_involutive. intros Ht%String.eqb_neq. eauto.
  - intros (t' & [= <-] & Hne). rewrite negb_involutive. by apply String.eqb_neq.
  - done.
  - by intros (t' & [=] & _).
Qed.

Section GateFacts.
Context `{Collaborators}.

Lemma authMiddleware_verified (now : Z) (users : list User)
    (authHeader : option string) (token : string) :
  bearerToken authHeader = Some token → token ≠ "" →
  authMiddleware now users authHeader =
    match jwtVerify token with
    | Threw e => {| outcome := Respond (authCatch e); lookups := [] |}
    | Returned decoded =>
        if tokIsGuest decoded then
          {| outcome := Next (Some (guestContext decoded)); lookups := [] |}
        else
          match findById (tokUserId decoded) users with
          | Threw e =>
              {| outcome := Respond (authCatch e); lookups := [tokUserId decoded] |}
          | Returned None =>
              {| outcome := Respond (deny 401 "Token is not valid. User not found.");
                 lookups := [tokUserId decoded] |}
          | Returned (Some user) =>
              if negb (String.eqb (u_status user) "active") then
                {| outcome :=
                     Respond (deny 403 "Account is not active. Please contact support.");
                   lookups := [tokUserId decoded] |}
              else if isLocked now user then
                {| outcome := Respond (deny 423 "Account is temporarily locked.");
                   lookups := [tokUserId decoded] |}
              else {| outcome := Next (Some (fullContext user));
                      lookups := [tokUserId decoded] |}
          end
    end.
Proof.
  intros Htok Hne. unfold authMiddleware.
  assert (noToken (bearerToken authHeader) = false) as ->
    by (apply noToken_false; eauto).
  by rewrite Htok.
Qed.

(** C2, as amended. Each of the four authentication failures is answered
    with status 401 and [success: false]; the message of the answer is the
    one written for that failure. *)
Theorem auth_failures_answer_401 (f : AuthFailure) (now : Z) (users : list User)
    (authHeader : option string) :
  occurs f users authHeader →
  ∃ r, outcome (authMiddleware now users authHeader) = Respond r
    ∧ status r = 401 ∧ success r = false
    ∧ message r = Some (failureMessage f) ∧ data r = None.
Proof.
  destruct f; simpl.
  - intros Hno. unfold authMiddleware. rewrite Hno. eauto 10.
  - intros (token & e & Htok & Hne & Hv & He).
    rewrite (authMiddleware_verified _ _ _ _ Htok Hne), Hv. simpl.
    unfold authCatch. rewrite He. simpl. eauto 10.
  - intros (token & e & Htok & Hne & Hv & He).
    rewrite (authMiddleware_verified _ _ _ _ Htok Hne), Hv. simpl.
    unfold authCatch. rewrite He. simpl. eauto 10.
  - intros (token & decoded & Htok & Hne & Hv & Hg & Hfind).
    rewrite (authMiddleware_verified _ _ _ _ Htok Hne), Hv, Hg, Hfind. simpl.
    eauto 10.
Qed.

(** C9. A request whose token verifies and carries [isGuest] passes the auth
    gate with a context of role guest and without a store read, and both
    role gates answer that context with 403; so does a route behind the
    auth gate and the admin gate. *)
Theorem guest_token_stops_at_role_gates (now : Z) (users : list User)
    (authHeader : option string) (token : string) (decoded : TokenPayload) :
  bearerToken authHeader = Some token → token ≠ "" →
  jwtVerify token = Returned decoded → tokIsGuest decoded = true →
  authMiddleware now users authHeader
    = {| outcome := Next (Some (guestContext decoded)); lookups := [] |}
  ∧ role (guestContext decoded) = "guest"
  ∧ adminMiddleware (Some (guestContext decoded))
      = Respond (deny 403 "Access denied. Admin privileges required.")
  ∧ superAdminMiddleware (Some (guestContext decoded))
      = Respond (deny 403 "Access denied. Super admin privileges required.")
  ∧ adminRouteGate now users authHeader
      = Respond (deny 403 "Access denied. Admin privileges required.").
Proof.
  intros Htok Hne Hv Hg.
  assert (authMiddleware now users authHeader
    = {| outcome := Next (Some (guestContext decoded)); lookups := [] |}) as Hauth
    by (by rewrite (authMiddleware_verified _ _ _ _ Htok Hne), Hv, Hg).
  repeat split; try done.
  unfold adminRouteGate. by rewrite Hauth.
Qed.

(** C10. The optional gate ends in [next()] for every request, and attaches
    a context exactly when the request carries a token that verifies and
    whose subject the store holds as an active account that is not locked. *)
Theorem optional_auth_always_proceeds (now : Z) (users : list User)
    (authHeader : option string) :
  ∃ reqUser,
    outcome (optionalAuthMiddleware now users authHeader) = Next reqUser
    ∧ ∀ c, reqUser = Some c
        ↔ ∃ token decoded user,
            bearerToken authHeader = Some token ∧ token ≠ ""
            ∧ jwtVerify token = Returned decoded
            ∧ findById (tokUserId decoded) users = Returned (Some user)
            ∧ u_status user = "active" ∧ isLocked now user = false
            ∧ c = optionalContext user.
Proof.
  unfold optionalAuthMiddleware.
  destruct (noToken (bearerToken authHeader)) eqn:Hno.
  { exists None. split; [done|]. intros c. split; [done|].
    intros (token & decoded & user & Htok & Hne & _).
    assert (noToken (bearerToken authHeader) = false)
      by (apply noToken_false; eauto).
    congruence. }
  apply noToken_false in Hno as (token & Htok & Hne). rewrite Htok. simpl.
  destruct (jwtVerify token) as [decoded|e] eqn:Hv.
  2:{ exists None. split; [done|]. intros c. split; [done|].
      intros (t & d & u & Ht & _ & Hv' & _). congruence. }
  destruct (findById (tokUserId decoded) users) as [[user|]|e] eqn:Hfind.
  - destruct (String.eqb_spec (u_status user) "active") as [Hact|Hact];
      destruct (isLocked now user) eqn:Hlock; simpl.
    2:{ exists (Some (optionalContext user)). split; [done|]. intros c. split.
        - intros [= <-]. exists token, decoded, user. done.
        - intros (t & d & u & Ht & _ & Hv' & Hf & _ & _ & ->).
          congruence. }
    all: exists None; split; [done|]; intros c; split; [done|];
      intros (t & d & u & Ht & _ & Hv' & Hf & Ha & Hl & _); congruence.
  - exists None. split; [done|]. intros c. split; [done|].
    intros (t & d & u & Ht & _ & Hv' & Hf & _). congruence.
  - exists None. split; [done|]. intros c. split; [done|].
    intros (t & d & u & Ht & _ & Hv' & Hf & _). congruence.
Qed.

End GateFacts.

(** ** Properties of registration and login *)

Lemma lockedThrough_isLocked (t now : Z) (u : User) :
  lockedThrough t u → now < t → isLocked now u = true.
Proof.
  intros (l & Hl & Hle) Hlt. unfold isLocked. rewrite Hl.
  apply Z.ltb_lt. lia.
Qed.

Lemma isLocked_later (t1 t : Z) (u0 u : User) :
  isLocked t1 u0 = false → t1 ≤ t → u_lockUntil u = u_lockUntil u0 →
  isLocked t u = false.
Proof.
  unfold isLocked. intros H0 Hle ->.
  destruct (u_lockUntil u0) as [l|]; [|done].
  apply Z.ltb_ge in H0. apply Z.ltb_ge. lia.
Qed.

Lemma findOneByEmail_email (e : string) (users : list User) (u : User) :
  findOneByEmail e users = Some u → u_email u = e.
Proof.
  unfold findOneByEmail. intros Hf. apply find_some in Hf as [_ He].
  by apply String.eqb_eq.
Qed.

(** Writing back a document with the id and email of the one a lookup by
    email finds makes the lookup find what was written. *)
Lemma findOneByEmail_updateUser (e : string) (users : list User) (u u' : User) :
  findOneByEmail e users = Some u → u_id u' = u_id u → u_email u' = e →
  findOneByEmail e (updateUser u' users) = Some u'.
Proof.
  intros Hf Hid He. unfold findOneByEmail, updateUser in *.
  induction users as [|d users IH]; simpl in *; [done|].
  destruct (String.eqb_spec (u_id d) (u_id u')) as [Hd|Hd].
  - by rewrite He, String.eqb_refl.
  - destruct (String.eqb (u_email d) e) eqn:Hde.
    + injection Hf as ->. congruence.
    + auto.
Qed.

Lemma findOneByEmail_insertUser (e : string) (users : list User) (u : User) :
  findOneByEmail e users = None → u_email u = e →
  findOneByEmail e (insertUser u users) = Some u.
Proof.
  intros Hf He. unfold findOneByEmail, insertUser in *.
  induction users as [|d users IH]; simpl in *.
  - by rewrite He, String.eqb_refl.
  - destruct (String.eqb (u_email d) e); [done|auto].
Qed.

Section LoginFacts.
Context `{JsRuntime} `{Collaborators}.

Lemma login_found (now : Z) (users : list User) (b : LoginBody) (user : User) :
  validateLogin b = [] → findOneByEmail (loginKey b) users = Some user →
  login now users b =
    if negb (isIn ["admin"; "super_admin"] (u_role user)) then
      (deny 403 "Access denied. Admin privileges required.", users)
    else if isLocked now user then (deny 423 lockedMessage, users)
    else if negb (String.eqb (u_status user) "active") then
      (deny 403 "Your account is not active. Please contact support.", users)
    else if negb (comparePassword user (fieldText (l_password b))) then
      (deny 401 "Invalid credentials", updateUser (incLoginAttempts now user) users)
    else
      ({| status := 200; success := true; message := Some "Login successful";
          errors := None; error := None;
          data := Some {| token := generateToken now user;
                          user := viewOf (touchActive now (touchLogin now
                                            (resetLoginAttempts user))) |} |},
       updateUser (touchActive now (touchLogin now (resetLoginAttempts user))) users).
Proof.
  intros Hv Hf. unfold login, loginKey in *. by rewrite Hv, Hf.
Qed.

Lemma login_locked (now : Z) (users : list User) (b : LoginBody) (user : User) :
  validateLogin b = [] → findOneByEmail (loginKey b) users = Some user →
  u_role user ∈ ["admin"; "super_admin"] → isLocked now user = true →
  login now users b = (deny 423 lockedMessage, users).
Proof.
  intros Hv Hf Hr%isIn_elem_of Hl.
  by rewrite (login_found _ _ _ _ Hv Hf), Hr, Hl.
Qed.

Lemma loginAll_cons (users : list User) (now : Z) (b : LoginBody)
    (reqs : list (Z * LoginBody)) :
  snd (loginAll users ((now, b) :: reqs))
    = snd (loginAll (snd (login now users b)) reqs).
Proof.
  simpl. destruct (login now users b) as [r users1]. simpl.
  by destruct (loginAll users1 reqs).
Qed.

Lemma failing_attempt_step (e : string) (u0 : User) (t1 k : Z)
    (users : list User) (req : Z * LoginBody) :
  u_role u0 ∈ ["admin"; "super_admin"] → u_status u0 = "active" →
  isLocked t1 u0 = false →
  afterFailures e u0 t1 k users → failingAttempt e u0 t1 req →
  afterFailures e u0 t1 (k + 1) (snd (login (fst req) users (snd req))).
Proof.
  intros Hrole Hact Hfree (u & Hf & Hsame & Hst) (Hlo & Hhi & Hv & Hkey & Hpw).
  destruct req as [t b]; simpl in *. subst e.
  destruct Hsame as (Hid & Hmail & Hpass & Hr & Hs).
  rewrite (login_found _ _ _ _ Hv Hf).
  apply isIn_elem_of in Hrole. rewrite Hr, Hrole. simpl.
  destruct Hst as [Hlocked|(Hlu & Hcount & Hbelow)].
  - rewrite (lockedThrough_isLocked _ t _ Hlocked) by lia. simpl.
    exists u. split; [done|]. split; [by repeat split|]. by left.
  - rewrite (isLocked_later t1 t u0 u Hfree Hlo Hlu).
    rewrite Hs, Hact. simpl.
    assert (comparePassword u (fieldText (l_password b)) = false) as ->
      by (unfold comparePassword in *; by rewrite Hpass).
    simpl. exists (incLoginAttempts t u). split; [|split].
    + apply (findOneByEmail_updateUser _ _ u); [done| |].
      * unfold incLoginAttempts. by destruct (_ <=? _).
      * unfold incLoginAttempts.
        destruct (_ <=? _); simpl; by apply (findOneByEmail_email _ users).
    + unfold incLoginAttempts, sameAccount. by destruct (_ <=? _).
    + unfold incLoginAttempts.
      destruct (Z.leb_spec lockThreshold (u_loginAttempts u + 1)) as [Hge|Hlt]; simpl.
      * left. exists (t + lockDuration). split; [done|lia].
      * right. repeat split; [done|lia|right; lia].
Qed.

Lemma failing_attempts_all (e : string) (u0 : User) (t1 : Z)
    (reqs : list (Z * LoginBody)) :
  u_role u0 ∈ ["admin"; "super_admin"] → u_status u0 = "active" →
  isLocked t1 u0 = false →
  Forall (failingAttempt e u0 t1) reqs →
  ∀ k users, afterFailures e u0 t1 k users →
    afterFailures e u0 t1 (k + Z.of_nat (length reqs)) (snd (loginAll users reqs)).
Proof.
  intros Hrole Hact Hfree. induction 1 as [|[t b] reqs Hreq _ IH]; intros k users Hk.
  - simpl. by rewrite Z.add_0_r.
  - rewrite loginAll_cons.
    replace (k + Z.of_nat (length ((t, b) :: reqs)))
      with (k + 1 + Z.of_nat (length reqs)) by (simpl; lia).
    apply IH.
    by apply (failing_attempt_step e u0 t1 k users (t, b)).
Qed.

(** C1, as amended. A login that passes validation, for an account of role
    admin or super_admin that is locked, is answered with 423 whatever the
    password, and the store is left as it was (no attempt is counted).  In
    particular: on an active account of such a role that is not locked and
    has a count of at least 0, after five or more login attempts with a
    wrong password in the two hours that follow, a further attempt in these
    two hours is answered with 423, with the right password too. *)
Theorem locked_admin_login_answers_423 :
  (∀ (now : Z) (users : list User) (b : LoginBody) (user : User),
     validateLogin b = [] → findOneByEmail (loginKey b) users = Some user →
     u_role user ∈ ["admin"; "super_admin"] → isLocked now user = true →
     login now users b = (deny 423 lockedMessage, users))
  ∧ (∀ (users : list User) (u0 : User) (t1 : Z) (reqs : list (Z * LoginBody))
       (t6 : Z) (b6 : LoginBody),
     findOneByEmail (loginKey b6) users = Some u0 →
     u_role u0 ∈ ["admin"; "super_admin"] → u_status u0 = "active" →
     isLocked t1 u0 = false → 0 ≤ u_loginAttempts u0 →
     Forall (failingAttempt (loginKey b6) u0 t1) reqs →
     lockThreshold ≤ Z.of_nat (length reqs) →
     t1 ≤ t6 → t6 < t1 + lockDuration → validateLogin b6 = [] →
     comparePassword u0 (fieldText (l_password b6)) = true →
     login t6 (snd (loginAll users reqs)) b6
       = (deny 423 lockedMessage, snd (loginAll users reqs))).
Proof.
  split; [apply login_locked|].
  intros users u0 t1 reqs t6 b6 Hf Hrole Hact Hfree Hcount Hreqs Hlen Hlo Hhi Hv _.
  destruct (failing_attempts_all _ u0 t1 reqs Hrole Hact Hfree Hreqs 0 users)
    as (u & Hfu & Hsame & Hst).
  { exists u0. split; [done|]. split; [by repeat split|].
    right. split; [done|]. split; [lia|by left]. }
  destruct Hsame as (_ & _ & _ & Hr & _).
  apply (login_locked _ _ _ u); [done|done|by rewrite Hr|].
  destruct Hst as [Hlocked|(_ & _ & [Hk|Hbelow])].
  - by apply (lockedThrough_isLocked (t1 + lockDuration)).
  - unfold lockThreshold in *. lia.
  - lia.
Qed.

(** C8. A registration that passes validation, gives no role, and whose
    email no account has yet, is answered with 201 and adds one account to
    the store, of role admin: the store afterwards is the store before
    with that account at its end, the account is in it, and a lookup by
    the email of the request finds it.  The answer names that account, and
    the token it returns is signed for that account and role. *)
Theorem register_defaults_to_admin (now : Z) (users : list User) (b : RegisterBody) :
  validateRegister b = [] → r_role b = None →
  findOneByEmail (toLowerCase (normalizeEmail (fieldText (r_email b)))) users = None →
  ∃ r u d,
    register now users b = (r, insertUser u users)
    ∧ status r = 201 ∧ success r = true ∧ data r = Some d
    ∧ u_role u = "admin" ∧ v_role (user d) = "admin"
    ∧ token d = jwtSign {| tokUserId := Some (u_id u); tokRole := Some "admin";
                           tokIsGuest := false |} now
    ∧ snd (register now users b) = (users ++ [u])%list
    ∧ u ∈ snd (register now users b)
    ∧ findOneByEmail (toLowerCase (normalizeEmail (fieldText (r_email b))))
        (snd (register now users b)) = Some u
    ∧ v_id (user d) = u_id u.
Proof.
  intros Hv Hrole Hfree.
  set (u := touchLogin now
              (newUser users (fieldText (r_name b))
                 (normalizeEmail (fieldText (r_email b)))
                 (fieldText (r_password b)) (r_phone b) "admin")).
  assert (register now users b
          = ({| status := 201; success := true;
                message := Some "User registered successfully";
                errors := None; error := None;
                data := Some {| token := jwtSign {| tokUserId := Some (u_id u);
                                                    tokRole := Some "admin";
                                                    tokIsGuest := false |} now;
                                user := viewOf u |} |},
             insertUser u users)) as Hreg.
  { unfold register. by rewrite Hv, Hfree, Hrole. }
  exists (fst (register now users b)), u,
    {| token := jwtSign {| tokUserId := Some (u_id u); tokRole := Some "admin";
                           tokIsGuest := false |} now;
       user := viewOf u |}.
  rewrite Hreg. cbn [fst snd status success data token user].
  repeat split.
  - unfold insertUser. apply elem_of_app. right. apply elem_of_cons. by left.
  - by apply findOneByEmail_insertUser.
Qed.

(** A password of fewer than six characters is refused, and nothing is
    stored. *)
Lemma register_short_password (now : Z) (users : list User) (b : RegisterBody) :
  validatorLength (fieldText (r_password b)) < 6 →
  status (fst (register now users b)) = 400 ∧ snd (register now users b) = users.
Proof.
  intros Hshort. unfold register.
  assert (validateRegister b ≠ []) as Hv.
  { unfold validateRegister. intros Hnil.
    apply app_eq_nil in Hnil as [_ Hnil]. apply app_eq_nil in Hnil as [_ Hnil].
    apply app_eq_nil in Hnil as [Hnil _].
    destruct (Z.leb_spec 6 (validatorLength (fieldText (r_password b))));
      [lia|discriminate Hnil]. }
  by destruct (validateRegister b).
Qed.

End LoginFacts.

(** ** The gates and the auth routes on concrete requests *)

Section Examples.
#[local] Existing Instance demoRuntime.
#[local] Existing Instance demoCollaborators.

(** The scenario of the specification: five logins with a wrong password
    are answered with 401, the sixth, with the right one, with 423. *)
Lemma locked_admin_login_witness :
  isLocked 1 alice = false
  ∧ status <$> fst (loginAll [alice] fiveWrong) = [401; 401; 401; 401; 401]
  ∧ login 6 (snd (loginAll [alice] fiveWrong)) (asAlice "secret1")
      = (deny 423 lockedMessage, snd (loginAll [alice] fiveWrong)).
Proof.
  split; [reflexivity|]. split; [reflexivity|].
  apply (proj2 locked_admin_login_answers_423 [alice] alice 1 fiveWrong 6
           (asAlice "secret1")).
  - reflexivity.
  - set_solver.
  - reflexivity.
  - reflexivity.
  - simpl. lia.
  - unfold fiveWrong.
    repeat (apply List.Forall_cons;
            [repeat split; try reflexivity; simpl; unfold lockDuration; lia|]).
    apply List.Forall_nil.
  - unfold lockThreshold. simpl. lia.
  - lia.
  - unfold lockDuration. lia.
  - reflexivity.
  - reflexivity.
Defined.

(** Against C1 as stated: a locked account of role user is answered with
    403, not 423, since the role is checked before the lock. *)
Lemma locked_user_login_answers_403 :
  isLocked 10 bob = true
  ∧ findOneByEmail "bob@example.com" [bob] = Some bob
  ∧ login 10 [bob] {| l_email := Some "bob@example.com"; l_password := Some "secret1" |}
      = (deny 403 "Access denied. Admin privileges required.", [bob])
  ∧ status (fst (login 10 [bob]
       {| l_email := Some "bob@example.com"; l_password := Some "secret1" |})) ≠ 423.
Proof. repeat split; try reflexivity. vm_compute. discriminate. Qed.

Lemma auth_failures_witness :
  occurs UserNotFound [alice] (Some "Bearer nobody")
  ∧ ∃ r, outcome (authMiddleware 0 [alice] (Some "Bearer nobody")) = Respond r
      ∧ status r = 401 ∧ success r = false
      ∧ message r = Some (failureMessage UserNotFound) ∧ data r = None.
Proof.
  assert (occurs UserNotFound [alice] (Some "Bearer nobody")) as Hocc.
  { exists "nobody", {| tokUserId := Some "nobody"; tokRole := Some "admin";
                       tokIsGuest := false |}.
    repeat split; try reflexivity. discriminate. }
  split; [exact Hocc|].
  exact (auth_failures_answer_401 UserNotFound 0 [alice] (Some "Bearer nobody") Hocc).
Defined.

(** Against C2 as stated: the answers to a request with no token and to one
    whose subject the store does not hold differ, in their message. *)
Lemma auth_failures_are_told_apart :
  occurs NoToken [alice] None
  ∧ occurs UserNotFound [alice] (Some "Bearer nobody")
  ∧ outcome (authMiddleware 0 [alice] None)
      = Respond (deny 401 "Access denied. No token provided.")
  ∧ outcome (authMiddleware 0 [alice] (Some "Bearer nobody"))
      = Respond (deny 401 "Token is not valid. User not found.")
  ∧ outcome (authMiddleware 0 [alice] None)
      ≠ outcome (authMiddleware 0 [alice] (Some "Bearer nobody")).
Proof.
  split; [reflexivity|]. split.
  { exists "nobody", {| tokUserId := Some "nobody"; tokRole := Some "admin";
                       tokIsGuest := false |}.
    repeat split; try reflexivity. discriminate. }
  split; [reflexivity|]. split; [reflexivity|].
  vm_compute. discriminate.
Qed.

Lemma guest_token_witness :
  bearerToken (Some "Bearer guest") = Some "guest"
  ∧ jwtVerify "guest"
      = Returned {| tokUserId := Some "guest-1"; tokRole := None; tokIsGuest := true |}
  ∧ lookups (authMiddleware 0 [alice] (Some "Bearer guest")) = []
  ∧ adminRouteGate 0 [alice] (Some "Bearer guest")
      = Respond (deny 403 "Access denied. Admin privileges required.").
Proof.
  split; [reflexivity|]. split; [reflexivity|].
  pose proof (guest_token_stops_at_role_gates 0 [alice] (Some "Bearer guest") "guest"
                {| tokUserId := Some "guest-1"; tokRole := None; tokIsGuest := true |}
                eq_refl ltac:(discriminate) eq_refl eq_refl) as (Hauth & _ & _ & _ & Hgate).
  split; [by rewrite Hauth|exact Hgate].
Defined.

Lemma register_defaults_witness :
  validateRegister {| r_name := Some "Carol"; r_email := Some "carol@example.com";
                      r_password := Some "secret1"; r_phone := None; r_role := None |} = []
  ∧ ∃ r u d,
      register 7 [alice]
        {| r_name := Some "Carol"; r_email := Some "carol@example.com";
           r_password := Some "secret1"; r_phone := None; r_role := None |}
        = (r, insertUser u [alice])
      ∧ status r = 201 ∧ success r = true ∧ data r = Some d
      ∧ u_role u = "admin" ∧ v_role (user d) = "admin"
      ∧ token d = jwtSign {| tokUserId := Some (u_id u); tokRole := Some "admin";
                             tokIsGuest := false |} 7
      ∧ snd (register 7 [alice]
               {| r_name := Some "Carol"; r_email := Some "carol@example.com";
                  r_password := Some "secret1"; r_phone := None; r_role := None |})
          = [alice; u]
      ∧ u ∈ snd (register 7 [alice]
                   {| r_name := Some "Carol"; r_email := Some "carol@example.com";
                      r_password := Some "secret1"; r_phone := None;
                      r_role := None |})
      ∧ findOneByEmail "carol@example.com"
          (snd (register 7 [alice]
                  {| r_name := Some "Carol"; r_email := Some "carol@example.com";
                     r_password := Some "secret1"; r_phone := None;
                     r_role := None |})) = Some u
      ∧ v_id (user d) = u_id u.
Proof.
  split; [reflexivity|].
  exact (register_defaults_to_admin 7 [alice]
           {| r_name := Some "Carol"; r_email := Some "carol@example.com";
              r_password := Some "secret1"; r_phone := None; r_role := None |}
           eq_refl eq_refl eq_refl).
Defined.

(** Three letters outside ASCII are six bytes and three characters: too
    short a password. *)
Lemma register_counts_characters :
  status (fst (register 7 [alice]
                 {| r_name := Some "Carol"; r_email := Some "carol@example.com";
                    r_password :=
                      Some (String "195" (String "164" (String "195" (String "182"
                             (String "195" (String "188" EmptyString))))));
                    r_phone := None; r_role := None |})) = 400.
Proof. apply register_short_password. reflexivity. Qed.

End Examples.

(** ** Arithmetic of the numbers that are integers *)

Lemma num_inj (a b : Z) : num a = num b → a = b.
Proof. intros [= Hab]. done. Qed.

Lemma jsToZ_num (z : Z) : jsToZ (num z) = Some z.
Proof. reflexivity. Qed.

Lemma Qc_of_Z_plus (a b : Z) : (Qc_of_Z a + Qc_of_Z b)%Qc = Qc_of_Z (a + b).
Proof.
  apply Qc_is_canon. simpl. rewrite Qred_correct.
  by rewrite inject_Z_plus.
Qed.

Lemma Qc_of_Z_minus (a b : Z) : (Qc_of_Z a - Qc_of_Z b)%Qc = Qc_of_Z (a - b).
Proof.
  apply Qc_is_canon. simpl. rewrite !Qred_correct.
  unfold Z.sub. rewrite inject_Z_plus, inject_Z_opp. reflexivity.
Qed.

Lemma Qc_of_Z_mult (a b : Z) : (Qc_of_Z a * Qc_of_Z b)%Qc = Qc_of_Z (a * b).
Proof.
  apply Qc_is_canon. simpl. rewrite Qred_correct.
  by rewrite inject_Z_mult.
Qed.

Lemma jadd_num (a b : Z) : jadd (num a) (num b) = num (a + b).
Proof. unfold jadd, num. by rewrite Qc_of_Z_plus. Qed.

Lemma jsub_num (a b : Z) : jsub (num a) (num b) = num (a - b).
Proof. unfold jsub, num. by rewrite Qc_of_Z_minus. Qed.

Lemma jmul_num (a b : Z) : jmul (num a) (num b) = num (a * b).
Proof. unfold jmul, num. by rewrite Qc_of_Z_mult. Qed.

Lemma qIsZero_of_Z (z : Z) : qIsZero (Qc_of_Z z) = (z =? 0).
Proof.
  unfold qIsZero, Qeq_bool. simpl. by rewrite Z.mul_1_r.
Qed.

Lemma qIsNeg_of_Z (z : Z) : qIsNeg (Qc_of_Z z) = (z <? 0).
Proof.
  unfold qIsNeg, Qle_bool. simpl. rewrite Z.mul_1_r.
  destruct (Z.leb_spec 0 z), (Z.ltb_spec z 0); simpl; try done; lia.
Qed.

Lemma numTruthy_num (z : Z) : numTruthy (num z) = negb (z =? 0).
Proof. simpl. by rewrite qIsZero_of_Z. Qed.

Lemma ceilDiv_spec (a b : Z) :
  0 < b → (ceilDiv a b - 1) * b < a ∧ a ≤ ceilDiv a b * b.
Proof.
  intros Hb. unfold ceilDiv.
  pose proof (Z.div_mod (- a) b ltac:(lia)).
  pose proof (Z.mod_pos_bound (- a) b Hb). nia.
Qed.

Lemma jceil_jdiv_num (a b : Z) :
  0 < b → jceil (jdiv (num a) (num b)) = num (ceilDiv a b).
Proof.
  intros Hb. unfold jdiv, num. rewrite qIsZero_of_Z.
  destruct (Z.eqb_spec b 0) as [->|_]; [lia|].
  unfold jceil, num. do 2 f_equal.
  unfold ceilDiv, Qceiling. f_equal.
  rewrite Zdiv_Qdiv. apply Qfloor_comp.
  unfold Qcdiv, Qcmult, Qcinv, Q2Qc. simpl.
  rewrite !Qred_correct. rewrite inject_Z_opp.
  unfold Qdiv. ring.
Qed.

(** At a page size of 0 the quotient is not a number of pages. *)
Lemma jceil_jdiv_zero (a : Z) :
  0 ≤ a → jceil (jdiv (num a) (num 0)) = if a =? 0 then JNaN else JInf false.
Proof.
  intros Ha. unfold jdiv, num. rewrite !qIsZero_of_Z, qIsNeg_of_Z. simpl.
  destruct (Z.eqb_spec a 0); [done|].
  destruct (Z.ltb_spec a 0); [lia|done].
Qed.

(** ** Properties of the rating histogram *)

Lemma emptyDistribution_lookup (z : Z) :
  1 ≤ z ≤ 5 → emptyDistribution !! num z = Some (num 0).
Proof.
  intros Hz. unfold emptyDistribution.
  assert (z = 1 ∨ z = 2 ∨ z = 3 ∨ z = 4 ∨ z = 5) as Hcases by lia.
  repeat (destruct Hcases as [->|Hcases]); try subst z;
    repeat first
      [ rewrite lookup_insert_eq
      | rewrite lookup_insert_ne by (intros ?%num_inj; lia) ];
    reflexivity.
Qed.

Lemma emptyDistribution_not_empty : emptyDistribution ≠ ∅.
Proof.
  intros Heq. pose proof (emptyDistribution_lookup 1 ltac:(lia)) as H1.
  rewrite Heq, lookup_empty in H1. discriminate.
Qed.

Lemma occurrences_cons (z : Z) (r : option jsnum) (rs : list (option jsnum)) :
  occurrences z (r :: rs)
    = (if bool_decide (r = Some (num z)) then 1 else 0) + occurrences z rs.
Proof.
  unfold occurrences. simpl. destruct (bool_decide _); simpl; lia.
Qed.

Lemma tally_lookup (h : gmap jsnum jsnum) (r : option jsnum) (z c : Z) :
  z ≠ 0 → h !! num z = Some (num c) →
  tally h r !! num z
    = Some (num (c + if bool_decide (r = Some (num z)) then 1 else 0)).
Proof.
  intros Hz Hh. unfold tally. destruct r as [n|].
  - destruct (numTruthy n) eqn:Hn.
    + case_bool_decide as Heq.
      * injection Heq as ->. rewrite lookup_insert_eq, Hh.
        unfold increment. by rewrite jadd_num.
      * rewrite lookup_insert_ne by congruence. by rewrite Hh, Z.add_0_r.
    + case_bool_decide as Heq.
      * injection Heq as ->. rewrite numTruthy_num in Hn.
        destruct (Z.eqb_spec z 0); [lia|done].
      * by rewrite Hh, Z.add_0_r.
  - rewrite bool_decide_eq_false_2 by done. by rewrite Hh, Z.add_0_r.
Qed.

Lemma fold_tally_lookup (rs : list (option jsnum)) :
  ∀ (h : gmap jsnum jsnum) (z c : Z),
    z ≠ 0 → h !! num z = Some (num c) →
    fold_left tally rs h !! num z = Some (num (c + occurrences z rs)).
Proof.
  induction rs as [|r rs IH]; intros h z c Hz Hh; simpl.
  - unfold occurrences. simpl. by rewrite Hh, Z.add_0_r.
  - rewrite occurrences_cons, Z.add_assoc.
    apply IH; [done|]. by apply tally_lookup.
Qed.

Lemma ratingHistogram_groupAll (docs : list Feedback) :
  ratingHistogram (head (groupAll docs))
    = fold_left tally (rating <$> docs) emptyDistribution.
Proof. by destruct docs. Qed.

Lemma ratingHistogram_dense (docs : list Feedback) :
  dense (ratingHistogram (head (groupAll docs))) (rating <$> docs).
Proof.
  intros z Hz. rewrite ratingHistogram_groupAll.
  rewrite (fold_tally_lookup _ _ z 0); [done|lia|].
  by apply emptyDistribution_lookup.
Qed.

Section HistogramFacts.
Context `{JsRuntime} `{Collection Feedback FeedbackFilter}.
Context {Trend : Type} `{Calendar Trend}.

Lemma feedbackList_distribution (docs : list Feedback) (q : FeedbackQuery)
    (d : FeedbackData) :
  feedbackList docs q = Replied (ok d) →
  ratingDistribution (stats d) = ratingHistogram (head (groupAll docs)).
Proof.
  unfold feedbackList.
  destruct (validateFeedbackQuery q); [|by intros [=]].
  destruct (findPage _ _ _ _ _ docs); [|by intros [=]].
  by intros [= <-].
Qed.

(** C6. The histogram both feedback routes answer with has every rating
    from 1 to 5 as a key, whose value is the number of stored ratings equal
    to it, 0 when there is none; over no feedback at all it is
    [{1:0, 2:0, 3:0, 4:0, 5:0}], which is not the empty object. *)
Theorem rating_histogram_is_dense :
  (emptyDistribution
     = list_to_map [(num 1, num 0); (num 2, num 0); (num 3, num 0);
                    (num 4, num 0); (num 5, num 0)]
   ∧ emptyDistribution ≠ ∅)
  ∧ ratingHistogram (head (groupAll [])) = emptyDistribution
  ∧ (∀ (docs : list Feedback) (q : FeedbackQuery) (d : FeedbackData),
       feedbackList docs q = Replied (ok d) →
       dense (ratingDistribution (stats d)) (rating <$> docs)
       ∧ (docs = [] → ratingDistribution (stats d) = emptyDistribution))
  ∧ (∀ (now : Z) (docs : list Feedback) (days : option string),
       ∃ d, feedbackSummary now docs days = Replied (ok d)
         ∧ dense (recentDistribution (recent d))
             (rating <$> recentWindow now days docs)
         ∧ (recentWindow now days docs = []
            → recentDistribution (recent d) = emptyDistribution)).
Proof.
  split; [split; [reflexivity|apply emptyDistribution_not_empty]|].
  split; [reflexivity|]. split.
  - intros docs q d Hd. rewrite (feedbackList_distribution _ _ _ Hd). split.
    + apply ratingHistogram_dense.
    + by intros ->.
  - intros now docs days. eexists. split; [reflexivity|]. simpl. split.
    + apply ratingHistogram_dense.
    + by intros ->.
Qed.

End HistogramFacts.

Section HistogramExample.
#[local] Existing Instance demoRuntime.
#[local] Existing Instance demoFeedbackStore.
#[local] Existing Instance demoCalendar.

Lemma rating_histogram_witness :
  ∃ d, feedbackList [] (feedbackQuery None None) = Replied (ok d)
    ∧ ratingDistribution (stats d) = emptyDistribution
    ∧ ratingDistribution (stats d) !! num 3 = Some (num 0).
Proof.
  eexists. split; [reflexivity|].
  destruct (proj1 (proj2 (proj2 rating_histogram_is_dense)) [] (feedbackQuery None None) _ eq_refl)
    as [Hdense Hempty].
  split; [by apply Hempty|].
  apply (Hdense 3). lia.
Defined.

End HistogramExample.

(** ** Properties of the lists *)

Lemma check_nil (okay : bool) (p m : string) : check okay p m = [] ↔ okay = true.
Proof. by destruct okay. Qed.

Lemma isIn_false (allowed : list string) (s : string) :
  s ∉ allowed → isIn allowed s = false.
Proof.
  intros Hs. destruct (isIn allowed s) eqn:Hin; [|done].
  by apply isIn_elem_of in Hin.
Qed.

(** A byte of ASCII that is not white space begins no white space. *)
Lemma trimStart_plain (c : ascii) (r : string) :
  Nat.ltb (byteOf c) 128 = true → isWhite c = false →
  trimStart (String c r) = String c r.
Proof.
  intros Hc Hw. cbn [trimStart]. rewrite Hw.
  assert (∀ b, isWhite2 c b = false) as H2.
  { intros b. unfold isWhite2.
    destruct (Nat.eqb_spec (byteOf c) 194) as [He|]; [|done].
    rewrite He in Hc. discriminate Hc. }
  assert (∀ b d, isWhite3 c b d = false) as H3.
  { intros b d. unfold isWhite3.
    destruct (Nat.eqb_spec (byteOf c) 225) as [He|]; [rewrite He in Hc; discriminate Hc|].
    destruct (Nat.eqb_spec (byteOf c) 226) as [He|]; [rewrite He in Hc; discriminate Hc|].
    destruct (Nat.eqb_spec (byteOf c) 227) as [He|]; [rewrite He in Hc; discriminate Hc|].
    destruct (Nat.eqb_spec (byteOf c) 239) as [He|]; [rewrite He in Hc; discriminate Hc|].
    done. }
  destruct r as [|b [|d r3]]; [done|by rewrite H2|by rewrite H2, H3].
Qed.

(** A decimal digit is a byte of ASCII and no white space. *)
Lemma digit_is_plain (c : ascii) (d : Z) :
  digitOf 10 c = Some d → Nat.ltb (byteOf c) 128 = true ∧ isWhite c = false.
Proof.
  destruct c as [[] [] [] [] [] [] [] []]; intros Hd;
    vm_compute in Hd; try discriminate Hd; by vm_compute.
Qed.

Lemma signedDecimal_trimmed (s : string) (z : Z) :
  signedDecimal s = Some z → trimStart s = s.
Proof.
  destruct s as [|c r]; [done|]. intros Hs.
  assert (Nat.ltb (byteOf c) 128 = true ∧ isWhite c = false) as [Hc Hw];
    [|by apply trimStart_plain].
  unfold signedDecimal, takeSign in Hs.
  destruct (Ascii.eqb_spec c "-") as [->|Hm]; [done|].
  destruct (Ascii.eqb_spec c "+") as [->|Hp]; [done|].
  assert (digitsFrom 10 None (String c r) ≠ (None, String c r)) as Hd.
  { intros Hd.
    destruct c as [[] [] [] [] [] [] [] []]; try (by rewrite Hd in Hs);
      congruence. }
  cbn [digitsFrom] in Hd. destruct (digitOf 10 c) as [d|] eqn:Hdigit; [|done].
  by apply (digit_is_plain c d).
Qed.

Lemma signedDecimal_parseInt10 (s : string) (z : Z) :
  signedDecimal s = Some z → parseInt10 s = num z.
Proof.
  intros Hs. unfold parseInt10. rewrite (signedDecimal_trimmed _ _ Hs).
  unfold signedDecimal in Hs. destruct (takeSign s) as [neg r].
  destruct (digitsFrom 10 None r) as [[d|] [|? ?]]; simpl; by inversion Hs.
Qed.

(** A parameter behind [.optional().isInt({ min, max }).toInt()] with a
    default is a number that is an integer: the default when the parameter
    is absent, within the bounds when it is given. *)
Lemma validated_int (lo : Z) (hi : option Z) (v : option string) (dflt : Z) :
  optionally (isInt (Some lo) hi) v = true →
  ∃ z, withDefault (toInt v) (VNum (num dflt)) = VNum (num z)
    ∧ match v with
      | Some _ => lo ≤ z ∧ match hi with Some h => z ≤ h | None => True end
      | None => z = dflt
      end.
Proof.
  destruct v as [s|]; simpl; [|by eauto].
  unfold isInt. destruct (signedDecimal s) as [z|] eqn:Hs; [|done].
  intros [Hlo Hhi]%andb_prop. exists z.
  rewrite (signedDecimal_parseInt10 _ _ Hs). split; [done|].
  split; [lia|]. destruct hi; [lia|done].
Qed.

Section ListFacts.
Context `{JsRuntime}.

Lemma parseInt_small (z : Z) : Z.abs z < 10 ^ 21 → parseInt (VNum (num z)) = num z.
Proof.
  intros Hz. unfold parseInt, num. simpl.
  by destruct (Z.ltb_spec (Z.abs z) (10 ^ 21)); [|lia].
Qed.

Section Paging.
Context {Doc Filter : Type} `{Collection Doc Filter}.

Lemma findPage_natural (q : Filter) (field : string) (dir k n : Z) (docs : list Doc) :
  0 ≤ k → 0 ≤ n →
  findPage q field dir (num k) (num n) docs =
    Returned (if n =? 0
              then drop (Z.to_nat k) (sortBy field dir (List.filter (matches q) docs))
              else take (Z.to_nat n)
                     (drop (Z.to_nat k) (sortBy field dir (List.filter (matches q) docs)))).
Proof.
  intros Hk Hn. unfold findPage. rewrite !jsToZ_num.
  destruct (Z.leb_spec 0 k); [|lia]. destruct (Z.leb_spec 0 n); [|lia]. done.
Qed.

End Paging.

Context {Article : Type} `{Collection Article NewsFilter}.

(** The news list with only a limit given, as a decimal numeral: no check
    stands between the query and the cursor. *)
Lemma newsList_limit (docs : list Article) (s : string) (n : Z) :
  stringToNumber s = num n → parseIntStr s = num n → 0 ≤ n →
  newsList docs (newsQuery (Some s) None) =
    Replied (ok {| articles :=
                     if n =? 0
                     then sortBy "createdAt" (-1) (List.filter (matches everyArticle) docs)
                     else take (Z.to_nat n)
                            (sortBy "createdAt" (-1)
                               (List.filter (matches everyArticle) docs));
                   newsPagination :=
                     {| currentPage := num 1;
                        totalPages :=
                          jceil (jdiv (num (countDocuments everyArticle docs)) (num n));
                        totalCount := countDocuments everyArticle docs |} |}).
Proof.
  intros Hnum Hint Hn. unfold newsList, newsQuery. read_query.
  change (parseInt (VStr s)) with (parseIntStr s).
  rewrite Hnum, Hint, jsub_num, jmul_num.
  rewrite findPage_natural by lia.
  rewrite parseInt_small by (simpl; lia).
  replace (Z.to_nat ((1 - 1) * n)) with 0%nat by lia.
  done.
Qed.

(** The news list with only a sort field given: any field name reaches the
    store, and the answer is the first page of 20. *)
Lemma newsList_sort (docs : list Article) (s : string) :
  newsList docs (newsQuery None (Some s)) =
    Replied (ok {| articles :=
                     take 20 (sortBy s (-1) (List.filter (matches everyArticle) docs));
                   newsPagination :=
                     {| currentPage := num 1;
                        totalPages := num (ceilDiv (countDocuments everyArticle docs) 20);
                        totalCount := countDocuments everyArticle docs |} |}).
Proof.
  unfold newsList, newsQuery. read_query.
  rewrite !parseInt_small by (simpl; lia).
  rewrite jsub_num, jmul_num, findPage_natural by lia.
  by rewrite jceil_jdiv_num by lia.
Qed.

End ListFacts.

Section FeedbackListFacts.
Context `{JsRuntime} `{Collection Feedback FeedbackFilter}.

Lemma feedbackList_invalid (docs : list Feedback) (q : FeedbackQuery) :
  validateFeedbackQuery q ≠ [] →
  feedbackList docs q = Replied (invalid (validateFeedbackQuery q)).
Proof.
  intros Hne. unfold feedbackList.
  by destruct (validateFeedbackQuery q).
Qed.

(** The feedback list on a query that passes its validators: the page
    number is at least 1, the page size is between 1 and 100 (20 when the
    query gives none), and the answer is that page of the sorted matches. *)
Lemma feedbackList_valid (docs : list Feedback) (q : FeedbackQuery) :
  validateFeedbackQuery q = [] →
  ∃ p l, 1 ≤ p ∧ 1 ≤ l ≤ 100 ∧ (fq_limit q = None → l = 20)
    ∧ feedbackList docs q =
        Replied (ok {| feedbacks :=
                         take (Z.to_nat l)
                           (drop (Z.to_nat ((p - 1) * l))
                              (sortBy (default "createdAt" (fq_sort q))
                                 (direction (default "desc" (fq_order q)))
                                 (List.filter (matches (feedbackFilter q)) docs)));
                       feedbackPagination :=
                         {| currentPage := parseInt (VNum (num p));
                            totalPages :=
                              num (ceilDiv (countDocuments (feedbackFilter q) docs) l);
                            totalCount := countDocuments (feedbackFilter q) docs |};
                       stats :=
                         {| averageRating := shownAverage (head (groupAll docs));
                            totalFeedback := shownCount (head (groupAll docs));
                            ratingDistribution :=
                              ratingHistogram (head (groupAll docs)) |} |}).
Proof.
  intros Hv. unfold feedbackList. rewrite Hv.
  unfold validateFeedbackQuery in Hv.
  apply app_eq_nil in Hv as [Hpage%check_nil Hv].
  apply app_eq_nil in Hv as [Hlimit%check_nil _].
  destruct (validated_int 1 None (fq_page q) 1 Hpage) as (p & -> & Hp).
  destruct (validated_int 1 (Some 100) (fq_limit q) 20 Hlimit) as (l & -> & Hl).
  assert (1 ≤ p) by (destruct (fq_page q); lia).
  assert (1 ≤ l ≤ 100) by (destruct (fq_limit q); lia).
  exists p, l. split; [done|]. split; [done|].
  split; [by intros Hnone; rewrite Hnone in Hl|].
  fold (feedbackFilter q). cbn [toNumber].
  rewrite (parseInt_small l) by (simpl; lia).
  rewrite jsub_num, jmul_num, findPage_natural by nia.
  rewrite jceil_jdiv_num by lia.
  destruct (Z.eqb_spec l 0); [lia|done].
Qed.

(** What the feedback list answers with has at most [limit] items, at most
    100, and its page count is the total over the page size, rounded up. *)
Lemma feedback_list_is_bounded (docs : list Feedback) (q : FeedbackQuery)
    (d : FeedbackData) :
  feedbackList docs q = Replied (ok d) →
  ∃ l, 1 ≤ l ≤ 100
    ∧ Z.of_nat (length (feedbacks d)) ≤ l
    ∧ totalPages (feedbackPagination d)
        = num (ceilDiv (totalCount (feedbackPagination d)) l)
    ∧ (ceilDiv (totalCount (feedbackPagination d)) l - 1) * l
        < totalCount (feedbackPagination d)
        ≤ ceilDiv (totalCount (feedbackPagination d)) l * l.
Proof.
  intros Hd. destruct (validateFeedbackQuery q) as [|e es] eqn:Hv.
  - destruct (feedbackList_valid docs q Hv) as (p & l & Hp & Hl & _ & Heq).
    rewrite Heq in Hd. injection Hd as <-. exists l. cbn.
    split; [done|]. split; [rewrite length_take; lia|]. split; [done|].
    apply ceilDiv_spec. lia.
  - rewrite feedbackList_invalid in Hd by (by rewrite Hv). by inversion Hd.
Qed.

(** A limit above 100, or one that is no positive integer, is answered
    with 400. *)
Lemma feedback_list_checks_limit (docs : list Feedback) (q : FeedbackQuery) (s : string) :
  fq_limit q = Some s → isInt (Some 1) (Some 100) s = false →
  ∃ r, feedbackList docs q = Replied r ∧ status r = 400.
Proof.
  intros Hs Hbad. exists (invalid (validateFeedbackQuery q)).
  split; [|reflexivity]. apply feedbackList_invalid. unfold validateFeedbackQuery.
  rewrite Hs. cbn [optionally]. rewrite Hbad. simpl.
  by destruct (check _ "page" _).
Qed.

(** A sort field other than the three the route lists is answered with
    400. *)
Lemma feedback_list_checks_sort (docs : list Feedback) (q : FeedbackQuery) (s : string) :
  fq_sort q = Some s → s ∉ ["createdAt"; "rating"; "feedback"] →
  ∃ r, feedbackList docs q = Replied r ∧ status r = 400.
Proof.
  intros Hs Hbad%isIn_false. exists (invalid (validateFeedbackQuery q)).
  split; [|reflexivity]. apply feedbackList_invalid. unfold validateFeedbackQuery.
  rewrite Hs. cbn [optionally]. rewrite Hbad.
  intros Hnil. do 3 (apply app_eq_nil in Hnil as [_ Hnil]).
  apply app_eq_nil in Hnil as [Hnil _]. discriminate Hnil.
Qed.

End FeedbackListFacts.

(** ** The news list on queries its sibling would refuse *)

(** C3, on the news list. [GET /api/news?limit=1000] is answered with up to
    1000 articles: the limit goes from the query to the cursor with no
    check against 100, where the feedback list refuses the same limit.
    With 150 articles stored, all 150 come back in one page. *)
Theorem news_list_limit_is_not_capped :
  (∀ (R : JsRuntime) (Article : Type) (C : Collection Article NewsFilter)
     (docs : list Article),
     newsList docs (newsQuery (Some "1000") None) =
       Replied (ok {| articles :=
                        take 1000 (sortBy "createdAt" (-1)
                                     (List.filter (matches everyArticle) docs));
                      newsPagination :=
                        {| currentPage := num 1;
                           totalPages :=
                             num (ceilDiv (countDocuments everyArticle docs) 1000);
                           totalCount := countDocuments everyArticle docs |} |}))
  ∧ ∃ d, @newsList demoRuntime nat demoArticles (seq 0 150)
           (newsQuery (Some "1000") None) = Replied (ok d)
      ∧ length (articles d) = 150%nat
      ∧ totalPages (newsPagination d) = num 1.
Proof.
  split.
  - intros R Article C docs.
    rewrite (newsList_limit docs "1000" 1000) by (reflexivity || lia).
    by rewrite jceil_jdiv_num by lia.
  - eexists. split; [|split].
    + rewrite (newsList_limit (seq 0 150) "1000" 1000) by (reflexivity || lia).
      reflexivity.
    + reflexivity.
    + reflexivity.
Qed.

(** C4, on the news list. [GET /api/news?sort=s] is answered with 200 for
    every field name [s]: the name goes from the query into the sort object
    with no check, where the feedback list refuses a name it does not
    list. *)
Theorem news_list_accepts_any_sort_field :
  (∀ (R : JsRuntime) (Article : Type) (C : Collection Article NewsFilter)
     (docs : list Article) (s : string),
     newsList docs (newsQuery None (Some s)) =
       Replied (ok {| articles :=
                        take 20 (sortBy s (-1) (List.filter (matches everyArticle) docs));
                      newsPagination :=
                        {| currentPage := num 1;
                           totalPages :=
                             num (ceilDiv (countDocuments everyArticle docs) 20);
                           totalCount := countDocuments everyArticle docs |} |}))
  ∧ ∃ r, @newsList demoRuntime nat demoArticles (seq 0 3)
           (newsQuery None (Some "noSuchField")) = Replied r
      ∧ status r = 200 ∧ success r = true
      ∧ articles <$> data r = Some [0; 1; 2]%nat.
Proof.
  split.
  - intros R Article C docs s. apply newsList_sort.
  - eexists. split; [apply newsList_sort|]. by repeat split.
Qed.

(** C5, on the news list. [GET /api/news?limit=0] is answered with every
    matching article, more than the limit of 0 as soon as there is one, and
    with a page count that is no number of pages: Infinity, or NaN when
    nothing matches. *)
Theorem news_list_page_size_zero :
  (∀ (R : JsRuntime) (Article : Type) (C : Collection Article NewsFilter)
     (docs : list Article),
     newsList docs (newsQuery (Some "0") None) =
       Replied (ok {| articles :=
                        sortBy "createdAt" (-1) (List.filter (matches everyArticle) docs);
                      newsPagination :=
                        {| currentPage := num 1;
                           totalPages :=
                             if countDocuments everyArticle docs =? 0
                             then JNaN else JInf false;
                           totalCount := countDocuments everyArticle docs |} |}))
  ∧ ∃ d, @newsList demoRuntime nat demoArticles (seq 0 3)
           (newsQuery (Some "0") None) = Replied (ok d)
      ∧ articles d = [0; 1; 2]%nat
      ∧ totalCount (newsPagination d) = 3
      ∧ totalPages (newsPagination d) = JInf false.
Proof.
  split.
  - intros R Article C docs.
    rewrite (newsList_limit docs "0" 0) by (reflexivity || lia).
    rewrite jceil_jdiv_zero by (unfold countDocuments; lia). done.
  - eexists. split; [|split; [|split]].
    + rewrite (newsList_limit (seq 0 3) "0" 0) by (reflexivity || lia).
      reflexivity.
    + reflexivity.
    + reflexivity.
    + reflexivity.
Qed.

(** ** The feedback list on concrete queries *)

Section FeedbackExamples.
#[local] Existing Instance demoRuntime.
#[local] Existing Instance demoFeedbackStore.

Lemma feedback_list_bounded_witness :
  ∃ d, feedbackList threeFeedbacks (feedbackQuery (Some "2") None) = Replied (ok d)
    ∧ length (feedbacks d) = 2%nat
    ∧ ∃ l, 1 ≤ l ≤ 100
        ∧ Z.of_nat (length (feedbacks d)) ≤ l
        ∧ totalPages (feedbackPagination d)
            = num (ceilDiv (totalCount (feedbackPagination d)) l)
        ∧ (ceilDiv (totalCount (feedbackPagination d)) l - 1) * l
            < totalCount (feedbackPagination d)
            ≤ ceilDiv (totalCount (feedbackPagination d)) l * l.
Proof.
  eexists. split; [reflexivity|]. split; [reflexivity|].
  exact (feedback_list_is_bounded threeFeedbacks (feedbackQuery (Some "2") None) _ eq_refl).
Defined.

Lemma feedback_limit_witness :
  isInt (Some 1) (Some 100) "1000" = false
  ∧ ∃ r, feedbackList threeFeedbacks (feedbackQuery (Some "1000") None) = Replied r
      ∧ status r = 400.
Proof.
  split; [reflexivity|].
  exact (feedback_list_checks_limit threeFeedbacks (feedbackQuery (Some "1000") None)
           "1000" eq_refl eq_refl).
Defined.

Lemma feedback_sort_witness :
  ("noSuchField" ∉ ["createdAt"; "rating"; "feedback"])
  ∧ ∃ r, feedbackList threeFeedbacks (feedbackQuery None (Some "noSuchField")) = Replied r
      ∧ status r = 400.
Proof.
  assert ("noSuchField" ∉ ["createdAt"; "rating"; "feedback"]) as Hnot.
  { intros Hin%isIn_elem_of. discriminate Hin. }
  split; [exact Hnot|].
  exact (feedback_list_checks_sort threeFeedbacks (feedbackQuery None (Some "noSuchField"))
           "noSuchField" eq_refl Hnot).
Defined.

(** Two ratings of 5 and a document with none: key 5 counts 2, the other
    four keys stay at 0. *)
Lemma histogram_of_three :
  ∃ d, feedbackList threeFeedbacks (feedbackQuery None None) = Replied (ok d)
    ∧ (λ z, ratingDistribution (stats d) !! num z) <$> [1; 2; 3; 4; 5]
        = [Some (num 0); Some (num 0); Some (num 0); Some (num 0); Some (num 2)].
Proof.
  eexists. split; [reflexivity|].
  pose proof (ratingHistogram_dense threeFeedbacks) as Hdense.
  cbn [fmap list_fmap stats ratingDistribution].
  rewrite !Hdense by lia. reflexivity.
Qed.

End FeedbackExamples.

(** ** Properties of the rest of the auth routes and of the seed *)

Lemma lookupById_id (id : string) (users : list User) (u : User) :
  lookupById id users = Some u → u_id u = id.
Proof.
  unfold lookupById. intros Hf. apply find_some in Hf as [_ He].
  by apply String.eqb_eq.
Qed.

(** Writing a document back under its id makes a lookup by that id find
    what was written. *)
Lemma lookupById_updateUser (id : string) (users : list User) (u u' : User) :
  lookupById id users = Some u → u_id u' = id →
  lookupById id (updateUser u' users) = Some u'.
Proof.
  intros Hf Hid. unfold lookupById, updateUser in *.
  induction users as [|d users IH]; simpl in *; [done|].
  destruct (String.eqb_spec (u_id d) (u_id u')) as [Hd|Hd].
  - by rewrite Hid, String.eqb_refl.
  - rewrite Hid in Hd. destruct (String.eqb_spec (u_id d) id); [done|]. auto.
Qed.

(** A write under an id leaves every document of another id where it is. *)
Lemma updateUser_other (u' : User) (users : list User) (i : nat) (d : User) :
  users !! i = Some d → u_id d ≠ u_id u' → updateUser u' users !! i = Some d.
Proof.
  intros Hi Hne. unfold updateUser. rewrite list_lookup_fmap, Hi. simpl.
  by destruct (String.eqb_spec (u_id d) (u_id u')).
Qed.

Lemma updateUser_ids (u u' : User) (users : list User) :
  u_id u' = u_id u → u_id <$> updateUser u' users = u_id <$> users.
Proof.
  intros Hid. unfold updateUser. induction users as [|d users IH]; [done|].
  cbn. f_equal; [|exact IH].
  destruct (String.eqb_spec (u_id d) (u_id u')); congruence.
Qed.

Section MoreAuthFacts.
Context `{JsRuntime} `{Collaborators}.

(** The profile route finds no admin: it answers 404, or hands on the
    error of a store read that fails; it never answers with a profile. *)
Theorem admin_profile_is_never_found (users : list User) (reqUser : IdentityContext) :
  adminProfile users reqUser = Replied (deny 404 "Admin not found")
  ∨ ∃ e, findByIdFault None = Some e ∧ adminProfile users reqUser = Forwarded e.
Proof.
  unfold adminProfile, findById.
  destruct (findByIdFault None) as [e|]; [right; eauto|by left].
Qed.

Lemma updateUserStatus_done (users users' : list User) (id : string)
    (st : option string) (r : Response User) :
  updateUserStatus users id st = (Replied r, users') → status r = 200 →
  ∃ user, findByIdFault (Some id) = None ∧ lookupById id users = Some user
    ∧ isIn ["active"; "inactive"; "suspended"] (fieldText st) = true
    ∧ users' = updateUser (withStatus (fieldText st) user) users
    ∧ data r = Some (withoutPassword (withStatus (fieldText st) user)).
Proof.
  unfold updateUserStatus, findByIdFull.
  destruct (isIn _ (fieldText st)) eqn:Hin; simpl; [|by intros [= <- <-]].
  destruct (findByIdFault (Some id)) as [e|]; [by intros [=]|]. simpl.
  destruct (lookupById id users) as [user|] eqn:Hf; [|by intros [= <- <-]].
  intros [= <- <-] _. by exists user.
Qed.

(** Once the status route has set an account to a status other than
    active, the auth gate answers a token of that account with 403, and the
    answer of the status route carries the account without its password. *)
Theorem deactivated_account_is_refused (now : Z) (users users' : list User)
    (id : string) (st : option string) (r : Response User)
    (authHeader : option string) (token : string) (decoded : TokenPayload) :
  updateUserStatus users id st = (Replied r, users') → status r = 200 →
  fieldText st ≠ "active" →
  bearerToken authHeader = Some token → token ≠ "" →
  jwtVerify token = Returned decoded → tokIsGuest decoded = false →
  tokUserId decoded = Some id →
  outcome (authMiddleware now users' authHeader)
    = Respond (deny 403 "Account is not active. Please contact support.")
  ∧ (u_password <$> data r) = Some None.
Proof.
  intros Hup Hok Hst Htok Hne Hv Hg Hid.
  destruct (updateUserStatus_done _ _ _ _ _ Hup Hok)
    as (user & Hfault & Hf & _ & -> & Hdata).
  split; [|by rewrite Hdata].
  rewrite (authMiddleware_verified _ _ _ _ Htok Hne), Hv, Hg, Hid.
  unfold findById. rewrite Hfault.
  rewrite (lookupById_updateUser id users user) by
    (done || (simpl; by apply (lookupById_id _ users))).
  simpl. by destruct (String.eqb_spec (fieldText st) "active").
Qed.

Lemma changePassword_done (users users' : list User) (c : IdentityContext)
    (b : ChangePasswordBody) (r : Response unit) :
  changePassword users c b = (Replied r, users') → status r = 200 →
  ∃ id user, userId c = Some id ∧ lookupById id users = Some user
    ∧ comparePassword user (fieldText (cp_oldPassword b)) = true
    ∧ 6 ≤ validatorLength (fieldText (cp_newPassword b))
    ∧ users' = updateUser
                 (withPassword (bcryptHash (fieldText (cp_newPassword b))) user) users.
Proof.
  unfold changePassword, findByIdFull.
  destruct (validateChangePassword b) as [|e es] eqn:Hv; [|by intros [= <- <-]].
  destruct (findByIdFault (userId c)); [by intros [=]|].
  destruct (userId c) as [id|]; simpl; [|by intros [= <- <-]].
  destruct (lookupById id users) as [user|] eqn:Hf; [|by intros [= <- <-]].
  destruct (comparePassword user _) eqn:Hold; simpl; [|by intros [= <- <-]].
  intros [= <- <-] _. exists id, user. repeat split; try done.
  unfold validateChangePassword in Hv.
  apply app_eq_nil in Hv as [_ Hnew%check_nil]. lia.
Qed.

(** After a change of password that was answered with 200, a login of that
    account with the new password is answered with 200, and one with a
    password that does not verify against the new hash with 401: here for
    an active account of role admin or super_admin that is not locked, and
    a hash that verifies the password it was made from. *)
Theorem changed_password_logs_in (now : Z) (users users' : list User)
    (c : IdentityContext) (b : ChangePasswordBody) (r : Response unit)
    (u : User) (lb : LoginBody) :
  (∀ p, bcryptCompare p (bcryptHash p) = true) →
  changePassword users c b = (Replied r, users') → status r = 200 →
  userId c = Some (u_id u) → lookupById (u_id u) users = Some u →
  findOneByEmail (loginKey lb) users = Some u →
  u_role u ∈ ["admin"; "super_admin"] → u_status u = "active" →
  isLocked now u = false → validateLogin lb = [] →
  (fieldText (l_password lb) = fieldText (cp_newPassword b)
   → status (fst (login now users' lb)) = 200)
  ∧ (bcryptCompare (fieldText (l_password lb))
       (bcryptHash (fieldText (cp_newPassword b))) = false
     → status (fst (login now users' lb)) = 401).
Proof.
  intros Hbcrypt Hcp Hok Hid Hlook Hfind Hrole%isIn_elem_of Hact Hfree Hv.
  destruct (changePassword_done _ _ _ _ _ Hcp Hok)
    as (id & user & Hid' & Hlook' & _ & _ & ->).
  rewrite Hid in Hid'. injection Hid' as <-.
  rewrite Hlook in Hlook'. injection Hlook' as <-.
  set (u' := withPassword (bcryptHash (fieldText (cp_newPassword b))) u).
  assert (findOneByEmail (loginKey lb) (updateUser u' users) = Some u') as Hfind'.
  { apply (findOneByEmail_updateUser _ _ u); [exact Hfind|reflexivity|].
    exact (findOneByEmail_email _ users _ Hfind). }
  rewrite (login_found _ _ _ _ Hv Hfind').
  change (u_role u') with (u_role u). change (u_status u') with (u_status u).
  change (isLocked now u') with (isLocked now u).
  rewrite Hrole, Hfree, Hact. simpl.
  unfold comparePassword. simpl. split.
  - intros ->. by rewrite Hbcrypt.
  - by intros ->.
Qed.

(** A login changes no account but the one it looks up: the ids stay as
    they are, in order, and every account of another id stays as it is. *)
Theorem login_touches_one_account (now : Z) (users : list User) (b : LoginBody) :
  u_id <$> snd (login now users b) = u_id <$> users
  ∧ ∀ i d, users !! i = Some d →
      (∀ u, findOneByEmail (loginKey b) users = Some u → u_id d ≠ u_id u) →
      snd (login now users b) !! i = Some d.
Proof.
  unfold login. fold (loginKey b).
  destruct (validateLogin b); [|done].
  destruct (findOneByEmail (loginKey b) users) as [u|]; [|done].
  destruct (negb (isIn _ (u_role u))); [done|].
  destruct (isLocked now u); [done|].
  destruct (negb (String.eqb (u_status u) "active")); [done|].
  destruct (negb (comparePassword u _)); simpl.
  - split.
    + apply (updateUser_ids u). unfold incLoginAttempts. by destruct (_ <=? _).
    + intros i d Hi Hne. apply updateUser_other; [done|].
      unfold incLoginAttempts. destruct (_ <=? _); exact (Hne u eq_refl).
  - split.
    + by apply (updateUser_ids u).
    + intros i d Hi Hne. apply updateUser_other; [done|]. exact (Hne u eq_refl).
Qed.

(** A login for an email that no account has, and a login with a wrong
    password for an active account of role admin or super_admin that is
    not locked, get the same answer. *)
Theorem login_hides_unknown_email (now : Z) (users : list User)
    (b1 b2 : LoginBody) (u : User) :
  validateLogin b1 = [] → findOneByEmail (loginKey b1) users = None →
  validateLogin b2 = [] → findOneByEmail (loginKey b2) users = Some u →
  u_role u ∈ ["admin"; "super_admin"] → u_status u = "active" →
  isLocked now u = false →
  comparePassword u (fieldText (l_password b2)) = false →
  fst (login now users b1) = fst (login now users b2)
  ∧ fst (login now users b1) = deny 401 "Invalid credentials".
Proof.
  intros Hv1 Hf1 Hv2 Hf2 Hrole%isIn_elem_of Hact Hfree Hpw.
  rewrite (login_found _ _ _ _ Hv2 Hf2), Hrole, Hfree, Hact, Hpw. simpl.
  unfold login. fold (loginKey b1). by rewrite Hv1, Hf1.
Qed.

(** After the seed the account under the admin address exists, its
    password is the default one, it is not locked and counts no failed
    attempt; and a second seed, then or later, changes nothing.  Here for a
    hash that verifies the password it was made from, and a lower-casing
    that leaves the admin address as it is. *)
Theorem seed_restores_default_admin (now later : Z) (users : list User) :
  (∀ p, bcryptCompare p (bcryptHash p) = true) →
  toLowerCase adminEmail = adminEmail → now ≤ later →
  (∃ u, findOneByEmail adminEmail (seedAdminUser now users) = Some u
     ∧ comparePassword u defaultPassword = true
     ∧ isLocked now u = false ∧ u_loginAttempts u ≤ 0)
  ∧ seedAdminUser later (seedAdminUser now users) = seedAdminUser now users.
Proof.
  intros Hbcrypt Hlower Hlater.
  assert (∃ u, findOneByEmail adminEmail (seedAdminUser now users) = Some u
     ∧ comparePassword u defaultPassword = true
     ∧ isLocked now u = false ∧ u_loginAttempts u ≤ 0) as Hpost.
  { unfold seedAdminUser.
    destruct (findOneByEmail adminEmail users) as [admin|] eqn:Hf.
    - destruct (negb _ || _ || _) eqn:Hcond.
      + exists (resetAdmin admin). split.
        * apply (findOneByEmail_updateUser _ _ admin); [exact Hf|reflexivity|].
          exact (findOneByEmail_email _ users _ Hf).
        * unfold comparePassword. simpl. by rewrite Hbcrypt.
      + apply orb_false_elim in Hcond as [Hcond Hn].
        apply orb_false_elim in Hcond as [Hpw%negb_false_iff Hl].
        apply Z.ltb_ge in Hn.
        exists admin. by rewrite Hf.
    - exists (newAdmin users). split.
      + apply findOneByEmail_insertUser; [exact Hf|exact Hlower].
      + unfold comparePassword. simpl. by rewrite Hbcrypt. }
  split; [done|].
  destruct Hpost as (u & Hf & Hpw & Hl & Hn).
  unfold seedAdminUser at 1. rewrite Hf.
  unfold comparePassword in Hpw. rewrite Hpw.
  rewrite (isLocked_later now later u u Hl Hlater eq_refl).
  by destruct (Z.ltb_spec 0 (u_loginAttempts u)); [lia|].
Qed.

End MoreAuthFacts.

Lemma bearer_of_token (t : string) : bearerToken (Some ("Bearer " ++ t)) = Some t.
Proof.
  unfold bearerToken. simpl. change ("" +:+ t) with t.
  rewrite Nat.sub_0_r. destruct t as [|c t]; [done|]. simpl. do 2 f_equal.
  induction t as [|c' t IH]; [done|]. simpl. by rewrite IH.
Qed.

Section TokenFacts.
Context `{JsRuntime} `{Collaborators}.

(** What a login that was answered with 200 found and did. *)
Lemma login_done (now : Z) (users users' : list User) (b : LoginBody)
    (r : Response AuthData) :
  login now users b = (r, users') → status r = 200 →
  ∃ u, findOneByEmail (loginKey b) users = Some u
    ∧ u_status u = "active"
    ∧ comparePassword u (fieldText (l_password b)) = true
    ∧ users' = updateUser (touchActive now (touchLogin now (resetLoginAttempts u))) users
    ∧ data r = Some {| token := generateToken now u;
                       user := viewOf (touchActive now (touchLogin now
                                         (resetLoginAttempts u))) |}.
Proof.
  unfold login. fold (loginKey b).
  destruct (validateLogin b); [|by intros [= <- <-]].
  destruct (findOneByEmail (loginKey b) users) as [u|]; [|by intros [= <- <-]].
  destruct (negb (isIn _ (u_role u))); [by intros [= <- <-]|].
  destruct (isLocked now u); [by intros [= <- <-]|].
  destruct (String.eqb_spec (u_status u) "active") as [Hact|]; simpl;
    [|by intros [= <- <-]].
  destruct (comparePassword u _) eqn:Hpw; simpl; [|by intros [= <- <-]].
  intros [= <- <-] _. by exists u.
Qed.


(** What the seed leaves under the admin address. *)
Lemma seedAdminUser_account (now : Z) (users : list User) :
  (∀ p, bcryptCompare p (bcryptHash p) = true) →
  toLowerCase adminEmail = adminEmail →
  ∃ u, findOneByEmail adminEmail (seedAdminUser now users) = Some u
    ∧ comparePassword u defaultPassword = true ∧ isLocked now u = false
    ∧ match findOneByEmail adminEmail users with
      | Some a => u_role u = u_role a ∧ u_status u = u_status a
      | None => u_role u = "admin" ∧ u_status u = "active"
      end.
Proof.
  intros Hbcrypt Hlower. unfold seedAdminUser.
  destruct (findOneByEmail adminEmail users) as [admin|] eqn:Hf.
  - destruct (negb _ || _ || _) eqn:Hcond.
    + exists (resetAdmin admin). split.
      * apply (findOneByEmail_updateUser _ _ admin); [exact Hf|reflexivity|].
        exact (findOneByEmail_email _ users _ Hf).
      * unfold comparePassword. simpl. by rewrite Hbcrypt.
    + apply orb_false_elim in Hcond as [Hcond _].
      apply orb_false_elim in Hcond as [Hpw%negb_false_iff Hl].
      exists admin. by rewrite Hf.
  - exists (newAdmin users). split.
    + apply findOneByEmail_insertUser; [exact Hf|exact Hlower].
    + unfold comparePassword. simpl. by rewrite Hbcrypt.
Qed.

(** After the seed, a login with the admin address and the default
    password is answered with 200, when no account had that address before
    or the one that had it is active and of role admin or super_admin; the
    password it had before does not matter.  Here for a hash that verifies
    the password it was made from, and an address that the validator
    accepts and that normalising and lower-casing leave as it is. *)
Theorem seeded_admin_logs_in (now : Z) (users : list User) :
  (∀ p, bcryptCompare p (bcryptHash p) = true) →
  isEmail adminEmail = true → normalizeEmail adminEmail = adminEmail →
  toLowerCase adminEmail = adminEmail →
  match findOneByEmail adminEmail users with
  | Some a => u_role a ∈ ["admin"; "super_admin"] ∧ u_status a = "active"
  | None => True
  end →
  status (fst (login now (seedAdminUser now users)
                 {| l_email := Some adminEmail; l_password := Some defaultPassword |}))
    = 200.
Proof.
  intros Hbcrypt Hmail Hnorm Hlower Hbefore.
  destruct (seedAdminUser_account now users Hbcrypt Hlower)
    as (u & Hf & Hpw & Hl & Hsame).
  assert (u_role u ∈ ["admin"; "super_admin"] ∧ u_status u = "active") as [Hrole Hact].
  { destruct (findOneByEmail adminEmail users) as [a|].
    - destruct Hsame as [-> ->]. exact Hbefore.
    - destruct Hsame as [-> ->]. split; [set_solver|done]. }
  apply isIn_elem_of in Hrole.
  rewrite (login_found _ _ _ u).
  - cbn [l_password fieldText from_option id].
    by rewrite Hrole, Hl, Hact, Hpw.
  - unfold validateLogin. simpl. by rewrite Hmail.
  - unfold loginKey. simpl. by rewrite Hnorm, Hlower.
Qed.

End TokenFacts.

(** ** The rest of the auth routes on concrete requests *)

Section MoreAuthExamples.
#[local] Existing Instance demoRuntime.
#[local] Existing Instance demoCollaborators.

Lemma demo_hash_verifies (p : string) : bcryptCompare p (bcryptHash p) = true.
Proof. apply String.eqb_refl. Qed.

Lemma deactivated_account_witness :
  ∃ r users',
    updateUserStatus [alice] "a1" (Some "suspended") = (Replied r, users')
    ∧ status r = 200
    ∧ outcome (authMiddleware 0 users' (Some "Bearer a1"))
        = Respond (deny 403 "Account is not active. Please contact support.")
    ∧ (u_password <$> data r) = Some None.
Proof.
  eexists _, _. split; [reflexivity|]. split; [reflexivity|].
  apply (deactivated_account_is_refused 0 [alice] _ "a1" (Some "suspended") _
           (Some "Bearer a1") "a1"
           {| tokUserId := Some "a1"; tokRole := Some "admin"; tokIsGuest := false |});
    try reflexivity; discriminate.
Defined.

Lemma changed_password_witness :
  ∃ r users',
    changePassword [alice] (fullContext alice)
      {| cp_oldPassword := Some "secret1"; cp_newPassword := Some "secret2" |}
      = (Replied r, users')
    ∧ status r = 200
    ∧ status (fst (login 9 users' (asAlice "secret2"))) = 200
    ∧ status (fst (login 9 users' (asAlice "secret1"))) = 401.
Proof.
  eexists _, _. split; [reflexivity|]. split; [reflexivity|]. split.
  - refine (proj1 (changed_password_logs_in 9 [alice] _ (fullContext alice)
              {| cp_oldPassword := Some "secret1"; cp_newPassword := Some "secret2" |}
              _ alice (asAlice "secret2") demo_hash_verifies _ _ _ _ _ _ _ _ _) _);
      try reflexivity. set_solver.
  - refine (proj2 (changed_password_logs_in 9 [alice] _ (fullContext alice)
              {| cp_oldPassword := Some "secret1"; cp_newPassword := Some "secret2" |}
              _ alice (asAlice "secret1") demo_hash_verifies _ _ _ _ _ _ _ _ _) _);
      try reflexivity. set_solver.
Defined.

Lemma login_hides_witness :
  fst (login 1 [alice] {| l_email := Some "nobody@example.com"; l_password := Some "x" |})
    = fst (login 1 [alice] (asAlice "wrong"))
  ∧ fst (login 1 [alice] {| l_email := Some "nobody@example.com"; l_password := Some "x" |})
    = deny 401 "Invalid credentials".
Proof.
  apply (login_hides_unknown_email 1 [alice] _ (asAlice "wrong") alice);
    try reflexivity. set_solver.
Defined.

Lemma seed_witness :
  (∃ u, findOneByEmail adminEmail (seedAdminUser 10 [alice; lockedAdmin]) = Some u
     ∧ comparePassword u defaultPassword = true
     ∧ isLocked 10 u = false ∧ u_loginAttempts u ≤ 0)
  ∧ seedAdminUser 20 (seedAdminUser 10 [alice; lockedAdmin])
      = seedAdminUser 10 [alice; lockedAdmin].
Proof.
  apply (seed_restores_default_admin 10 20 [alice; lockedAdmin]);
    [exact demo_hash_verifies|reflexivity|lia].
Defined.

Lemma seeded_admin_witness :
  isLocked 10 lockedAdmin = true
  ∧ status (fst (login 10 [alice; lockedAdmin]
       {| l_email := Some adminEmail; l_password := Some defaultPassword |})) = 423
  ∧ status (fst (login 10 (seedAdminUser 10 [alice; lockedAdmin])
       {| l_email := Some adminEmail; l_password := Some defaultPassword |})) = 200.
Proof.
  split; [reflexivity|]. split; [reflexivity|].
  apply (seeded_admin_logs_in 10 [alice; lockedAdmin]);
    [exact demo_hash_verifies|reflexivity|reflexivity|reflexivity|].
  simpl. split; [set_solver|reflexivity].
Defined.

End MoreAuthExamples.

(** ** The token of a login, on concrete requests *)

Section TokenExamples.
#[local] Existing Instance demoRuntime.
#[local] Existing Instance spelledTokens.

Lemma readStrokes_strokes (n : nat) (rest : string) :
  readStrokes (strokes n rest) = Some (n, rest).
Proof. induction n as [|n IH]; cbn; [done|]. by rewrite IH. Qed.

Lemma splitAt_length (t rest : string) :
  splitAt (String.length t) (t +:+ rest) = Some (t, rest).
Proof. induction t as [|c t IH]; simpl; [done|]. by rewrite IH. Qed.

Lemma readField_writeField (v : option string) (rest : string) :
  readField (writeField v rest) = Some (v, rest).
Proof.
  destruct v as [t|]; [|done].
  unfold writeField, readField. cbv beta iota.
  change (Ascii.eqb "s" "n") with false. change (Ascii.eqb "s" "s") with true.
  cbv iota. rewrite readStrokes_strokes. cbv beta iota. by rewrite splitAt_length.
Qed.

Lemma spelled_tokens_read_back (p : TokenPayload) (t : Z) :
  jwtSign p t ≠ "" ∧ jwtVerify (jwtSign p t) = Returned p.
Proof.
  split; [done|]. cbn [jwtSign jwtVerify spelledTokens]. unfold readToken, spellToken.
  rewrite !readField_writeField. by destruct p as [id rl []].
Qed.


End TokenExamples.

(** ** Properties of the pages of a list *)

Lemma trimEnd_cons (c : ascii) (r : string) :
  Nat.ltb (byteOf c) 128 = true → isWhite c = false → trimEnd r = r →
  trimEnd (String c r) = String c r.
Proof.
  intros Hc Hw Hr. cbn [trimEnd]. rewrite (trimStart_plain c r Hc Hw). by rewrite Hr.
Qed.

Lemma digits_only_trimEnd (r : string) :
  ∀ acc z, digitsFrom 10 acc r = (Some z, "") → trimEnd r = r.
Proof.
  induction r as [|c r IH]; intros acc z Hd; [done|].
  simpl in Hd. destruct (digitOf 10 c) as [d|] eqn:Hc; [|by inversion Hd].
  destruct (digit_is_plain c d Hc) as [Hb Hw].
  apply trimEnd_cons; [exact Hb|exact Hw|exact (IH _ z Hd)].
Qed.

Lemma isHexPrefix_Some (r r' : string) :
  isHexPrefix r = Some r' → ∃ c, r = String "0" (String c r') ∧ digitOf 10 c = None.
Proof.
  destruct r as [|c0 [|c1 r1]]; try discriminate.
  - destruct c0 as [[] [] [] [] [] [] [] []]; discriminate.
  - destruct c0 as [[] [] [] [] [] [] [] []]; try discriminate.
    destruct c1 as [[] [] [] [] [] [] [] []]; try discriminate;
      intros [= <-]; eexists; split; reflexivity.
Qed.

Lemma digits_only_no_hex (r : string) (z : Z) :
  digitsFrom 10 None r = (Some z, "") → isHexPrefix r = None.
Proof.
  intros Hd. destruct (isHexPrefix r) as [r'|] eqn:Hx; [|done].
  apply isHexPrefix_Some in Hx as (c & -> & Hc).
  simpl in Hd. rewrite Hc in Hd. change (digitOf 10 "0") with (Some 0) in Hd.
  simpl in Hd. by inversion Hd.
Qed.

(** A sign and decimal digits read the same by [parseInt] and by the
    coercion to a number. *)
Lemma signedDecimal_parseIntStr (s : string) (z : Z) :
  signedDecimal s = Some z → parseIntStr s = num z.
Proof.
  intros Hs. unfold parseIntStr. rewrite (signedDecimal_trimmed _ _ Hs).
  unfold signedDecimal in Hs. destruct (takeSign s) as [neg r].
  destruct (digitsFrom 10 None r) as [[d|] [|? ?]] eqn:Hd; try by inversion Hs.
  rewrite (digits_only_no_hex _ _ Hd), Hd. simpl. by inversion Hs.
Qed.

Lemma signedDecimal_trimEnd (s : string) (z : Z) :
  signedDecimal s = Some z → trimEnd s = s ∧ s ≠ "".
Proof.
  intros Hs. unfold signedDecimal in Hs.
  destruct s as [|c r]; [by vm_compute in Hs|]. split; [|done].
  destruct (takeSign (String c r)) as [neg r'] eqn:Hsign.
  destruct (digitsFrom 10 None r') as [[d|] [|? ?]] eqn:Hd; try by inversion Hs.
  pose proof (digits_only_trimEnd _ _ _ Hd) as Htrim.
  unfold takeSign in Hsign.
  destruct (Ascii.eqb_spec c "-") as [->|Hm].
  { injection Hsign as _ <-. by apply trimEnd_cons. }
  destruct (Ascii.eqb_spec c "+") as [->|Hp].
  { injection Hsign as _ <-. by apply trimEnd_cons. }
  assert (r' = String c r) as ->.
  { destruct c as [[] [] [] [] [] [] [] []]; try (by injection Hsign);
      congruence. }
  exact Htrim.
Qed.

Section NumeralFacts.
Context `{JsRuntime}.

Lemma signedDecimal_stringToNumber (s : string) (z : Z) :
  signedDecimal s = Some z → stringToNumber s = num z.
Proof.
  intros Hs. unfold stringToNumber.
  rewrite (signedDecimal_trimmed _ _ Hs).
  destruct (signedDecimal_trimEnd _ _ Hs) as [-> Hne].
  destruct s; [done|]. by rewrite Hs.
Qed.

End NumeralFacts.

(** Cutting a list into [n] pages of [l] and putting them back together
    gives the list, when [n] pages are enough. *)
Lemma pages_concat {A : Type} (xs : list A) (l n : nat) :
  (length xs ≤ n * l)%nat →
  concat ((fun k => take l (drop ((k - 1) * l) xs)) <$> seq 1 n) = xs.
Proof.
  intros Hlen.
  assert (∀ m, concat ((fun k => take l (drop ((k - 1) * l) xs)) <$> seq 1 m)
               = take (m * l) xs) as Hm.
  { induction m as [|m IH]; [done|].
    rewrite seq_S, fmap_app, concat_app, IH. simpl.
    rewrite app_nil_r, Nat.sub_0_r, take_take_drop. f_equal. lia. }
  rewrite Hm. by apply take_ge.
Qed.

Lemma fmap_related {A B C : Type} (R : A → B → Prop) (f : A → C) (g : B → C)
    (xs : list A) (ys : list B) :
  Forall2 R xs ys → (∀ x y, R x y → y ∈ ys → f x = g y) → f <$> xs = g <$> ys.
Proof.
  induction 1 as [|x y xs ys Hxy _ IH]; intros Hfg; [done|].
  cbn. f_equal.
  - apply Hfg; [done|set_solver].
  - apply IH. intros x' y' Hr Hin. apply Hfg; [done|set_solver].
Qed.

Section NewsPageFacts.
Context `{JsRuntime} {Article : Type} `{Collection Article NewsFilter}.

(** The news list on a page number and a page size given as decimal
    numerals of at least 1: the answer is that page of the sorted matches,
    with the page count that goes with the page size. *)
Lemma newsList_numerals (docs : list Article) (q : NewsQuery)
    (p l : string) (pz lz : Z) :
  nq_page q = Some p → signedDecimal p = Some pz → 1 ≤ pz →
  nq_limit q = Some l → signedDecimal l = Some lz → 1 ≤ lz →
  newsList docs q =
    Replied (ok {| articles :=
                     take (Z.to_nat lz)
                       (drop (Z.to_nat ((pz - 1) * lz)) (newsMatches q docs));
                   newsPagination :=
                     {| currentPage := num pz;
                        totalPages :=
                          num (ceilDiv (countDocuments (newsFilter q) docs) lz);
                        totalCount := countDocuments (newsFilter q) docs |} |}).
Proof.
  intros Hp Hpz Hp1 Hl Hlz Hl1. unfold newsList. rewrite Hp, Hl.
  cbn [ofQuery withDefault toNumber parseInt].
  rewrite (signedDecimal_stringToNumber _ _ Hpz), (signedDecimal_stringToNumber _ _ Hlz).
  rewrite (signedDecimal_parseIntStr _ _ Hpz), (signedDecimal_parseIntStr _ _ Hlz).
  fold (newsFilter q). fold (newsSortField q). fold (newsDirection q).
  rewrite jsub_num, jmul_num, findPage_natural by nia.
  rewrite jceil_jdiv_num by lia.
  destruct (Z.eqb_spec lz 0); [lia|]. done.
Qed.

(** Walking the pages of the news list from 1 to the page count it reports
    gives every match once, in the order asked for, and no page holds more
    than the page size.  Here for a page size given as a decimal numeral of
    at least 1, page numbers given as decimal numerals, and a store whose
    sort keeps the number of documents. *)
Theorem news_pages_cover_the_matches (docs : list Article) (q : NewsQuery)
    (l : string) (lz : Z) (pages : list string) :
  nq_limit q = Some l → signedDecimal l = Some lz → 1 ≤ lz →
  (∀ field dir (xs : list Article), length (sortBy field dir xs) = length xs) →
  Forall2 (fun p k => signedDecimal p = Some (Z.of_nat k)) pages
    (seq 1 (Z.to_nat (ceilDiv (countDocuments (newsFilter q) docs) lz))) →
  concat ((fun p => pageArticles (newsList docs (atPage p q))) <$> pages)
    = newsMatches q docs
  ∧ Forall (fun p => Z.of_nat (length (pageArticles (newsList docs (atPage p q)))) ≤ lz)
      pages.
Proof.
  intros Hl Hlz Hl1 Hsort Hpages.
  set (n := Z.to_nat (ceilDiv (countDocuments (newsFilter q) docs) lz)) in *.
  assert (∀ p k, signedDecimal p = Some (Z.of_nat k) → k ∈ seq 1 n →
      pageArticles (newsList docs (atPage p q))
        = take (Z.to_nat lz) (drop ((k - 1) * Z.to_nat lz) (newsMatches q docs)))
    as Hpage.
  { intros p k Hp Hk%elem_of_seq.
    rewrite (newsList_numerals docs (atPage p q) p l (Z.of_nat k) lz)
      by (done || lia).
    cbn [pageArticles data ok articles].
    change (newsMatches (atPage p q) docs) with (newsMatches q docs).
    do 2 f_equal. nia. }
  split.
  - rewrite (fmap_related _ _ _ _ _ Hpages Hpage).
    apply pages_concat. unfold newsMatches. rewrite Hsort.
    pose proof (ceilDiv_spec (countDocuments (newsFilter q) docs) lz ltac:(lia))
      as [_ Hle].
    unfold countDocuments in *. subst n. nia.
  - apply Forall_forall. intros p Hin.
    destruct (proj1 (list_elem_of_lookup _ _) Hin) as [i Hi].
    destruct (Forall2_lookup_l _ _ _ _ _ Hpages Hi) as (k & Hk & Hp).
    rewrite (Hpage p k Hp) by (by apply (list_elem_of_lookup_2 _ i)).
    rewrite length_take. lia.
Qed.

End NewsPageFacts.

Section UsersListFacts.
Context `{JsRuntime} `{Sanitizer} `{Collection User UserFilter}.

(** No answer of the users list carries a password, and a successful one
    has at most as many users as the page size, which is between 1 and
    100, with the page count that goes with it. *)
Theorem users_list_hides_passwords (docs : list User) (q : UserQuery) (d : UsersData) :
  usersList docs q = Replied (ok d) →
  Forall (fun u => u_password u = None) (users d)
  ∧ ∃ l, 1 ≤ l ≤ 100 ∧ (uq_limit q = None → l = 20)
      ∧ Z.of_nat (length (users d)) ≤ l
      ∧ up_totalPages (usersPagination d) = num (ceilDiv (up_totalUsers (usersPagination d)) l)
      ∧ (ceilDiv (up_totalUsers (usersPagination d)) l - 1) * l
          < up_totalUsers (usersPagination d)
          ≤ ceilDiv (up_totalUsers (usersPagination d)) l * l.
Proof.
  unfold usersList.
  destruct (validateUserQuery q) as [|e es] eqn:Hv; [|by intros [=]].
  unfold validateUserQuery in Hv.
  apply app_eq_nil in Hv as [Hpage%check_nil Hv].
  apply app_eq_nil in Hv as [Hlimit%check_nil _].
  destruct (validated_int 1 None (uq_page q) 1 Hpage) as (p & -> & Hp).
  destruct (validated_int 1 (Some 100) (uq_limit q) 20 Hlimit) as (l & -> & Hl).
  assert (1 ≤ p) by (destruct (uq_page q); lia).
  assert (1 ≤ l ≤ 100) by (destruct (uq_limit q); lia).
  cbn [toNumber].
  rewrite jsub_num, jmul_num, findPage_natural by nia.
  rewrite jceil_jdiv_num by lia.
  destruct (Z.eqb_spec l 0); [lia|].
  intros [= <-]. cbn. split.
  - apply Forall_fmap, Forall_true. done.
  - exists l. split; [done|]. split; [by intros Hnone; rewrite Hnone in Hl|].
    split; [rewrite length_fmap, length_take; lia|]. split; [done|].
    apply ceilDiv_spec. lia.
Qed.

End UsersListFacts.

Section PageExamples.
#[local] Existing Instance demoRuntime.
#[local] Existing Instance demoArticles.
#[local] Existing Instance demoSanitizer.
#[local] Existing Instance demoUsers.

Lemma news_pages_witness :
  concat ((fun p => pageArticles
                      (newsList (seq 0 5) (atPage p (newsQuery (Some "2") None))))
            <$> ["1"; "2"; "3"])
    = seq 0 5
  ∧ Forall (fun p => Z.of_nat (length (pageArticles
                       (newsList (seq 0 5) (atPage p (newsQuery (Some "2") None))))) ≤ 2)
      ["1"; "2"; "3"].
Proof.
  refine (news_pages_cover_the_matches (seq 0 5) (newsQuery (Some "2") None) "2" 2
            ["1"; "2"; "3"] _ _ _ _ _); try reflexivity; try lia.
  change (seq 1 _) with [1; 2; 3]%nat.
  repeat (apply List.Forall2_cons; [reflexivity|]). apply List.Forall2_nil.
Defined.

Lemma users_list_witness :
  ∃ d, usersList [alice; bob]
         {| uq_page := None; uq_limit := Some "1"; uq_role := Some "user";
            uq_status := None; uq_search := None; uq_sort := None; uq_order := None |}
         = Replied (ok d)
    ∧ users d = [withoutPassword bob]
    ∧ Forall (fun u => u_password u = None) (users d)
    ∧ ∃ l, 1 ≤ l ≤ 100
        ∧ Z.of_nat (length (users d)) ≤ l
        ∧ up_totalPages (usersPagination d)
            = num (ceilDiv (up_totalUsers (usersPagination d)) l).
Proof.
  eexists. split; [reflexivity|]. split; [reflexivity|].
  match goal with
  | |- Forall _ (users ?d) ∧ _ =>
      assert (usersList [alice; bob]
                {| uq_page := None; uq_limit := Some "1"; uq_role := Some "user";
                   uq_status := None; uq_search := None; uq_sort := None;
                   uq_order := None |} = Replied (ok d)) as Hd by reflexivity;
      destruct (users_list_hides_passwords _ _ _ Hd)
        as (Hpw & l & Hl & _ & Hlen & Hpages & _)
  end.
  split; [exact Hpw|]. exists l.
  split; [exact Hl|]. split; [exact Hlen|exact Hpages].
Defined.

End PageExamples.

(** ** Properties of the routes that read and delete by id *)

Section ByIdFacts.
Context `{ObjectIds} {Doc : Type} `{Keyed Doc}.

Lemma removeDoc_length (o : string) (docs : list Doc) (d : Doc) :
  List.find (hasId o) docs = Some d →
  (length (removeDoc o docs) + 1 = length docs)%nat.
Proof.
  induction docs as [|x docs IH]; simpl; [done|].
  destruct (hasId o x); [intros _; lia|].
  intros Hf. specialize (IH Hf). simpl. lia.
Qed.

(** With ids that are all different, removing the first document of an id
    removes every document of that id and no other. *)
Lemma removeDoc_elem_of (o : string) (docs : list Doc) (d : Doc) :
  NoDup (docId <$> docs) →
  d ∈ removeDoc o docs ↔ d ∈ docs ∧ docId d ≠ o.
Proof.
  induction docs as [|x docs IH]; simpl; intros Hnd.
  { split; [by intros ?%elem_of_nil|by intros [?%elem_of_nil _]]. }
  apply NoDup_cons in Hnd as [Hx Hnd]. unfold hasId at 1.
  destruct (String.eqb_spec (docId x) o) as [Ho|Ho].
  - split.
    + intros Hin. split; [by apply elem_of_cons; right|]. intros Hd. apply Hx.
      rewrite Ho, <- Hd. by apply list_elem_of_fmap_2.
    + intros [[->|Hin]%elem_of_cons Hd]; [done|done].
  - rewrite elem_of_cons, (IH Hnd), elem_of_cons. split.
    + intros [->|[Hin Hd]]; [by split; [left|]|by split; [right|]].
    + intros [[->|Hin] Hd]; [by left|by right].
Qed.

Lemma find_hasId_None (o : string) (docs : list Doc) :
  List.find (hasId o) docs = None ↔ ∀ d, d ∈ docs → docId d ≠ o.
Proof.
  induction docs as [|x docs IH]; simpl.
  { split; [by intros _ d ?%elem_of_nil|done]. }
  unfold hasId at 1.
  destruct (String.eqb_spec (docId x) o) as [Ho|Ho].
  - split; [done|]. intros Hall. destruct (Hall x); [by apply elem_of_cons; left|done].
  - rewrite IH. split.
    + intros Hall d [->|Hin]%elem_of_cons; auto.
    + intros Hall d Hin. apply Hall. by apply elem_of_cons; right.
Qed.

Lemma withoutIds_elem_of (os : list string) (docs : list Doc) (d : Doc) :
  d ∈ withoutIds os docs ↔ d ∈ docs ∧ docId d ∉ os.
Proof.
  unfold withoutIds. rewrite !list_elem_of_In, filter_In, <- !list_elem_of_In.
  rewrite negb_true_iff, <- not_true_iff_false, isIn_elem_of. done.
Qed.

Lemma withoutIds_idemp (os : list string) (docs : list Doc) :
  withoutIds os (withoutIds os docs) = withoutIds os docs.
Proof.
  unfold withoutIds. induction docs as [|x docs IH]; simpl; [done|].
  destruct (negb (isIn os (docId x))) eqn:Hx; simpl; [|done].
  by rewrite Hx, IH.
Qed.

(** What a delete that was answered with 200 found. *)
Lemma deleteArticle_done (docs docs' : list Doc) (id : string) (r : Response string) :
  deleteArticle docs id = (Replied r, docs') → status r = 200 →
  ∃ o d, isValidObjectId id = true ∧ castObjectId id = Returned o
    ∧ List.find (hasId o) docs = Some d ∧ docs' = removeDoc o docs
    ∧ data r = Some id.
Proof.
  unfold deleteArticle.
  destruct (isValidObjectId id); simpl; [|by intros [= <- <-]].
  destruct (castObjectId id) as [o|e]; [|by intros [=]].
  destruct (List.find (hasId o) docs) as [d|] eqn:Hf; [|by intros [= <- <-]].
  intros [= <- <-] _. by exists o, d.
Qed.

(** After a delete that was answered with 200, the article route answers
    the same id with 404, the collection is one document shorter, and the
    documents left are those of another id.  Here for a collection whose
    ids are all different. *)
Theorem deleted_article_is_gone (docs docs' : list Doc) (id : string)
    (r : Response string) :
  deleteArticle docs id = (Replied r, docs') → status r = 200 →
  NoDup (docId <$> docs) →
  getArticle docs' id = Replied (deny 404 "News article not found")
  ∧ (length docs' + 1 = length docs)%nat
  ∧ ∃ o, castObjectId id = Returned o
      ∧ ∀ d, d ∈ docs' ↔ d ∈ docs ∧ docId d ≠ o.
Proof.
  intros Hdel Hok Hnd.
  destruct (deleteArticle_done _ _ _ _ Hdel Hok) as (o & d & Hvalid & Hcast & Hf & -> & _).
  split; [|split].
  - unfold getArticle, findDoc. rewrite Hvalid, Hcast. simpl.
    assert (List.find (hasId o) (removeDoc o docs) = None) as ->; [|done].
    apply find_hasId_None. intros x Hx. by apply (removeDoc_elem_of o docs x Hnd).
  - by apply (removeDoc_length o docs d).
  - exists o. split; [done|]. intros x. by apply removeDoc_elem_of.
Qed.

(** Any answer of the delete other than 200 leaves the collection as it
    was. *)
Lemma deleteArticle_keeps (docs docs' : list Doc) (id : string) (h : Handled string) :
  deleteArticle docs id = (h, docs') →
  (∀ r, h = Replied r → status r ≠ 200) → docs' = docs.
Proof.
  unfold deleteArticle.
  destruct (isValidObjectId id); simpl; [|by intros [= <- <-]].
  destruct (castObjectId id) as [o|e]; [|by intros [= <- <-]].
  destruct (List.find (hasId o) docs) as [d|]; [|by intros [= <- <-]].
  intros [= <- <-] Hno. by destruct (Hno _ eq_refl).
Qed.

Lemma validateIds_nil (ids : option (list string)) :
  validateIds ids = [] ↔ ∃ l, ids = Some l ∧ Forall (fun id => isMongoId id = true) l.
Proof.
  destruct ids as [l|]; simpl.
  2:{ split; [done|]. by intros (l & [=] & _). }
  assert (∀ (g : nat → string → list FieldError),
    (∀ i id, g i id = [] ↔ isMongoId id = true) →
    mjoin (imap g l) = [] ↔ Forall (fun id => isMongoId id = true) l) as Hgen.
  { induction l as [|x l IH]; intros g Hg; simpl.
    - split; [constructor|done].
    - split.
      + intros [Hx Hl]%app_eq_nil. constructor; [by apply (Hg 0%nat)|].
        apply (IH (g ∘ S)); [|done]. intros i id. apply Hg.
      + intros [Hx Hl]%Forall_cons. rewrite (proj2 (Hg 0%nat x) Hx). simpl.
        apply (IH (g ∘ S)); [|done]. intros i id. apply Hg. }
  rewrite Hgen by (intros i id; apply check_nil).
  split; [eauto|]. by intros (l' & [= <-] & Hall).
Qed.

(** A bulk delete that was answered with 200 removed the documents whose
    id is one of those given and no other, its answer counts them, and
    the same request again is answered with a count of 0 and changes
    nothing. *)
Theorem bulk_delete_removes_the_listed (docs docs' : list Doc)
    (ids : option (list string)) (r : Response Z) :
  bulkDeleteArticles docs ids = (Replied r, docs') → status r = 200 →
  ∃ l os, ids = Some l ∧ castAll l = Returned os
    ∧ (∀ d, d ∈ docs' ↔ d ∈ docs ∧ docId d ∉ os)
    ∧ data r = Some (Z.of_nat (length docs) - Z.of_nat (length docs'))
    ∧ bulkDeleteArticles docs' ids
        = (Replied (done200 "0 article(s) deleted successfully" (Some 0)), docs').
Proof.
  unfold bulkDeleteArticles.
  destruct (validateIds ids) as [|e es] eqn:Hv; [|by intros [= <- <-]].
  destruct (proj1 (validateIds_nil ids) Hv) as (l & -> & Hall). simpl.
  destruct (castAll l) as [os|e] eqn:Hcast; [|by intros [=]].
  intros [= <- <-] _. exists l, os. split; [done|]. split; [done|].
  split; [intros d; apply withoutIds_elem_of|]. split; [done|].
  rewrite withoutIds_idemp, Z.sub_diag. done.
Qed.

(** A bulk delete with an id that the validator refuses is answered with
    400 and deletes nothing, the documents of its other ids included. *)
Theorem bulk_delete_is_all_or_nothing (docs : list Doc) (l : list string) (id : string) :
  id ∈ l → isMongoId id = false →
  ∃ r, bulkDeleteArticles docs (Some l) = (Replied r, docs) ∧ status r = 400.
Proof.
  intros Hin Hbad. unfold bulkDeleteArticles.
  destruct (validateIds (Some l)) as [|e es] eqn:Hv.
  - apply validateIds_nil in Hv as (l' & [= <-] & Hall).
    rewrite Forall_forall in Hall. rewrite (Hall id Hin) in Hbad. discriminate.
  - by eexists.
Qed.

End ByIdFacts.

Lemma occurrences_removeDoc (o : string) (docs : list Feedback) (f : Feedback) (z : Z) :
  List.find (hasId o) docs = Some f →
  occurrences z (rating <$> removeDoc o docs)
    = occurrences z (rating <$> docs)
      - (if bool_decide (rating f = Some (num z)) then 1 else 0).
Proof.
  induction docs as [|x docs IH]; cbn [List.find removeDoc]; [done|].
  destruct (hasId o x).
  - intros [= ->]. rewrite fmap_cons, occurrences_cons.
    destruct (bool_decide _); lia.
  - intros Hf. rewrite !fmap_cons, !occurrences_cons, (IH Hf).
    destruct (bool_decide (rating x = _)); lia.
Qed.

Section FeedbackDeleteFacts.
Context `{JsRuntime} `{ObjectIds} `{Collection Feedback FeedbackFilter}.

Lemma feedbackList_stats (docs : list Feedback) (q : FeedbackQuery) (d : FeedbackData) :
  feedbackList docs q = Replied (ok d) →
  totalFeedback (stats d) = Z.of_nat (length docs)
  ∧ dense (ratingDistribution (stats d)) (rating <$> docs).
Proof.
  intros Hd. split.
  - revert Hd. unfold feedbackList.
    destruct (validateFeedbackQuery q); [|by intros [=]].
    destruct (findPage _ _ _ _ _ docs); [|by intros [=]].
    intros [= <-]. by destruct docs.
  - rewrite (feedbackList_distribution _ _ _ Hd). apply ratingHistogram_dense.
Qed.

(** After a feedback delete that was answered with 200, the feedback list
    counts one feedback less, and its histogram has one less under the
    rating of the feedback deleted and is as before under the other
    ratings. *)
Theorem deleted_feedback_leaves_the_histogram (docs docs' : list Feedback)
    (id : string) (r : Response string) (q : FeedbackQuery) (d d' : FeedbackData) :
  deleteFeedback docs id = (Replied r, docs') → status r = 200 →
  feedbackList docs q = Replied (ok d) → feedbackList docs' q = Replied (ok d') →
  ∃ f, f ∈ docs ∧ castObjectId id = Returned (fb_id f)
    ∧ totalFeedback (stats d') = totalFeedback (stats d) - 1
    ∧ ∀ z, 1 ≤ z ≤ 5 →
        ∃ c, ratingDistribution (stats d) !! num z = Some (num c)
          ∧ ratingDistribution (stats d') !! num z
              = Some (num (c - if bool_decide (rating f = Some (num z)) then 1 else 0)).
Proof.
  unfold deleteFeedback.
  destruct (castObjectId id) as [o|e] eqn:Hcast; [|by intros [=]].
  destruct (List.find (hasId o) docs) as [f|] eqn:Hf; [|by intros [= <- <-]].
  intros [= <- <-] _ Hd Hd'.
  destruct (feedbackList_stats _ _ _ Hd) as [Htotal Hdense].
  destruct (feedbackList_stats _ _ _ Hd') as [Htotal' Hdense'].
  pose proof (find_some _ _ Hf) as [Hin Hid%String.eqb_eq].
  exists f. split; [by apply list_elem_of_In|]. split; [by rewrite <- Hid|].
  split.
  - rewrite Htotal, Htotal'. pose proof (removeDoc_length o docs f Hf). lia.
  - intros z Hz. exists (occurrences z (rating <$> docs)).
    split; [by apply Hdense|].
    rewrite (Hdense' z Hz). by rewrite (occurrences_removeDoc o docs f z Hf).
Qed.

End FeedbackDeleteFacts.

(** ** The routes by id on concrete requests *)

Section ByIdExamples.
#[local] Existing Instance demoRuntime.
#[local] Existing Instance demoObjectIds.
#[local] Existing Instance demoFeedbackStore.

Lemma deleted_article_witness :
  ∃ r docs',
    deleteArticle threeArticles "n002" = (Replied r, docs')
    ∧ status r = 200
    ∧ docs' = [{| da_id := "n001"; da_title := "one" |};
               {| da_id := "n003"; da_title := "three" |}]
    ∧ getArticle docs' "n002" = Replied (deny 404 "News article not found")
    ∧ (length docs' + 1 = length threeArticles)%nat.
Proof.
  eexists _, _. split; [reflexivity|]. split; [reflexivity|]. split; [reflexivity|].
  assert (NoDup (docId <$> threeArticles)) as Hnd.
  { repeat (apply NoDup_cons; split; [cbn; intros Hin; by repeat
      (apply elem_of_cons in Hin as [Hin|Hin]; [discriminate Hin|]);
      apply elem_of_nil in Hin|]). apply NoDup_nil. done. }
  edestruct deleted_article_is_gone with (docs := threeArticles) (id := "n002")
    as (Hget & Hlen & _);
    [reflexivity|reflexivity|exact Hnd|].
  split; [exact Hget|exact Hlen].
Defined.

Lemma bulk_delete_witness :
  ∃ r docs',
    bulkDeleteArticles threeArticles (Some ["n003"; "n001"; "n009"]) = (Replied r, docs')
    ∧ status r = 200
    ∧ docs' = [{| da_id := "n002"; da_title := "two" |}]
    ∧ data r = Some 2
    ∧ bulkDeleteArticles docs' (Some ["n003"; "n001"; "n009"])
        = (Replied (done200 "0 article(s) deleted successfully" (Some 0)), docs').
Proof.
  eexists _, _. split; [reflexivity|]. split; [reflexivity|]. split; [reflexivity|].
  split; [reflexivity|].
  edestruct bulk_delete_removes_the_listed
    with (docs := threeArticles) (ids := Some ["n003"; "n001"; "n009"])
    as (l & os & _ & _ & _ & _ & Hagain); [reflexivity|reflexivity|].
  exact Hagain.
Defined.

Lemma bulk_delete_refusal_witness :
  isMongoId "oops!" = false
  ∧ ∃ r, bulkDeleteArticles threeArticles (Some ["n001"; "oops!"])
           = (Replied r, threeArticles)
      ∧ status r = 400.
Proof.
  split; [reflexivity|].
  apply (bulk_delete_is_all_or_nothing threeArticles ["n001"; "oops!"] "oops!");
    [|reflexivity].
  apply elem_of_cons. right. apply elem_of_cons. by left.
Defined.

Lemma deleted_feedback_witness :
  ∃ r docs' d d',
    deleteFeedback fourFeedbacks "f003" = (Replied r, docs')
    ∧ status r = 200
    ∧ feedbackList fourFeedbacks (feedbackQuery None None) = Replied (ok d)
    ∧ feedbackList docs' (feedbackQuery None None) = Replied (ok d')
    ∧ totalFeedback (stats d) = 4 ∧ totalFeedback (stats d') = 3
    ∧ ∃ f, f ∈ fourFeedbacks ∧ castObjectId "f003" = Returned (fb_id f)
        ∧ totalFeedback (stats d') = totalFeedback (stats d) - 1
        ∧ ∀ z, 1 ≤ z ≤ 5 →
            ∃ c, ratingDistribution (stats d) !! num z = Some (num c)
              ∧ ratingDistribution (stats d') !! num z
                  = Some (num (c - if bool_decide (rating f = Some (num z))
                                   then 1 else 0)).
Proof.
  eexists _, _, _, _. split; [reflexivity|]. split; [reflexivity|].
  split; [reflexivity|]. split; [reflexivity|].
  split; [reflexivity|]. split; [reflexivity|].
  eapply deleted_feedback_leaves_the_histogram
    with (docs := fourFeedbacks) (id := "f003") (q := feedbackQuery None None);
    reflexivity.
Defined.

End ByIdExamples.

(** ** The YouTube id of a URL *)

Local Open Scope list_scope.

Section MatcherFacts.
Context {R : Type}.

Lemma matchStar_suffix (p : N → bool) (k : list N → option R) (s : list N) (x : R) :
  matchStar p k s = Some x → ∃ s', suffix s' s ∧ k s' = Some x.
Proof.
  induction s as [|c s IH]; simpl.
  - intros Hk. by exists [].
  - destruct (p c); [|intros Hk; by exists (c :: s)].
    destruct (matchStar p k s) as [y|] eqn:Hs.
    + intros [= ->]. destruct (IH eq_refl) as (s' & Hsuf & Hk).
      exists s'. split; [by apply suffix_cons_r|done].
    + intros Hk. by exists (c :: s).
Qed.

Lemma matchRep_Some (n : nat) (p : N → bool) (k : list N → option R) (s : list N) (x : R) :
  matchRep n p k s = Some x →
  ∃ id s', s = id ++ s' ∧ length id = n ∧ Forall (λ c, p c = true) id ∧ k s' = Some x.
Proof.
  revert s. induction n as [|n IH]; intros s; simpl.
  - intros Hk. by exists [], s.
  - destruct s as [|c s]; [done|]. destruct (p c) eqn:Hc; [|done].
    intros (id & s' & -> & <- & Hid & Hk)%IH.
    exists (c :: id), s'. repeat split; [by constructor|done].
Qed.

Lemma matchRep_app (n : nat) (p : N → bool) (k : list N → option R) (id rest : list N) :
  length id = n → Forall (λ c, p c = true) id →
  matchRep n p k (id ++ rest) = k rest.
Proof.
  revert id. induction n as [|n IH]; intros [|c id]; simpl; try done.
  intros [= Hn] [Hc Hid]%Forall_cons. rewrite Hc. by apply IH.
Qed.

Lemma stripPrefix_suffix (l s s' : list N) : stripPrefix l s = Some s' → suffix s' s.
Proof.
  revert s. induction l as [|a l IH]; intros s; simpl.
  - by intros [= ->].
  - destruct s as [|c s]; [done|]. destruct (N.eqb a c); [|done].
    intros Hs%IH. by apply suffix_cons_r.
Qed.

Lemma matchAt_suffix (r : regex) (s : list N) (g : option (list N))
    (k : list N → option (list N) → option R) (x : R) :
  matchAt r s g k = Some x → ∃ s' g', suffix s' s ∧ k s' g' = Some x.
Proof.
  revert s g k. induction r as [l|p|a IHa b IHb|a IHa b IHb|a IHa|p|p|n p|a IHa];
    intros s g k; simpl.
  - destruct (stripPrefix l s) as [s'|] eqn:Hl; [|done].
    intros Hk. exists s', g. split; [by eapply stripPrefix_suffix|done].
  - destruct s as [|c s]; [done|]. destruct (p c); [|done].
    intros Hk. exists s, g. split; [by apply suffix_cons_r|done].
  - intros (s1 & g1 & Hs1 & (s2 & g2 & Hs2 & Hk)%IHb)%IHa.
    exists s2, g2. split; [by etrans|done].
  - destruct (matchAt a s g k) eqn:Ha.
    + intros [= ->]. by apply IHa in Ha.
    + by intros Hb%IHb.
  - destruct (matchAt a s g k) eqn:Ha.
    + intros [= ->]. by apply IHa in Ha.
    + intros Hk. by exists s, g.
  - intros (s' & Hs' & Hk)%matchStar_suffix. by exists s', g.
  - destruct s as [|c s]; [done|]. destruct (p c); [|done].
    intros (s' & Hs' & Hk)%matchStar_suffix.
    exists s', g. split; [by apply suffix_cons_r|done].
  - intros (id & s' & -> & _ & _ & Hk)%matchRep_Some.
    exists s', g. split; [by apply suffix_app_r|done].
  - intros (s' & g' & Hs' & Hk)%IHa. by exists s', (Some (take (length s - length s') s)).
Qed.

(** When no place of the input lets the continuation through, a star fails. *)
Lemma matchStar_None (p : N → bool) (k : list N → option R) (s : list N) :
  (∀ s', suffix s' s → k s' = None) → matchStar p k s = None.
Proof.
  induction s as [|c s IH]; intros Hk; simpl.
  - by apply Hk.
  - rewrite IH; [|intros s' Hs'; apply Hk; by apply suffix_cons_r].
    destruct (p c); by apply Hk.
Qed.

End MatcherFacts.

Lemma take_app_length_diff (id rest : list N) :
  take (length (id ++ rest) - length rest) (id ++ rest) = id.
Proof.
  rewrite length_app. replace (length id + length rest - length rest)%nat
    with (length id) by lia. by rewrite take_app_length.
Qed.

Lemma search_Some (r : regex) (s : list N) (g : option (list N)) :
  search r s = Some g →
  ∃ s', suffix s' s ∧ matchAt r s' None (λ _ g', Some g') = Some g.
Proof.
  induction s as [|c s IH]; simpl.
  - destruct (matchAt r [] None _) eqn:Hm; [|done]. intros [= ->]. by exists [].
  - destruct (matchAt r (c :: s) None _) eqn:Hm.
    + intros [= ->]. by exists (c :: s).
    + intros (s' & Hs' & Hm')%IH. exists s'. split; [by apply suffix_cons_r|done].
Qed.

Lemma stripPrefix_Some (l s s' : list N) : stripPrefix l s = Some s' → s = l ++ s'.
Proof.
  revert s. induction l as [|a l IH]; intros s; simpl.
  - by intros [= ->].
  - destruct s as [|c s]; [done|]. destruct (N.eqb_spec a c) as [->|]; [|done].
    by intros ->%IH.
Qed.

Lemma stripPrefix_app (l s : list N) : stripPrefix l (l ++ s) = Some s.
Proof. induction l as [|a l IH]; simpl; [done|]. by rewrite N.eqb_refl. Qed.

(** A match of an expression of the pattern's shape starts with one of the
    two hosts and ends with the characters of the group. *)
Lemma hosts_then_group (l1 l2 : list N) (a : regex) (n : nat) (p : N → bool)
    (s : list N) (g : option (list N)) :
  matchAt (Seq (Alt (Seq (Lit l1) a) (Lit l2)) (Group (Rep n p))) s None
    (λ _ g', Some g') = Some g →
  ∃ host mid id post, s = host ++ mid ++ id ++ post ∧ (host = l1 ∨ host = l2)
    ∧ g = Some id ∧ length id = n ∧ Forall (λ c, p c = true) id.
Proof.
  intros Hm.
  assert (∃ host mid s1, s = host ++ mid ++ s1 ∧ (host = l1 ∨ host = l2)
          ∧ matchRep n p (λ s', Some (Some (take (length s1 - length s') s1))) s1
              = Some g) as (host & mid & s1 & -> & Hhost & Hg).
  { cbn [matchAt] in Hm.
    destruct (stripPrefix l1 s) as [s0|] eqn:H1.
    - apply stripPrefix_Some in H1 as ->.
      match type of Hm with
      | match ?m with _ => _ end = _ => destruct m as [y|] eqn:Ha
      end.
      + injection Hm as ->.
        apply matchAt_suffix in Ha as (s1 & g1 & [mid ->] & Hg).
        exists l1, mid, s1. split; [done|]. split; [by left|done].
      + destruct (stripPrefix l2 (l1 ++ s0)) as [s1|] eqn:H2; [|done].
        apply stripPrefix_Some in H2. exists l2, [], s1.
        split; [done|]. split; [by right|done].
    - destruct (stripPrefix l2 s) as [s1|] eqn:H2; [|done].
      apply stripPrefix_Some in H2. exists l2, [], s1.
      split; [done|]. split; [by right|done]. }
  apply matchRep_Some in Hg as (id & post & -> & Hlen & Hid & [= <-]).
  exists host, mid, id, post. by rewrite take_app_length_diff.
Qed.

Lemma search_hit (r : regex) (s : list N) (g : option (list N)) :
  matchAt r s None (λ _ g', Some g') = Some g → search r s = Some g.
Proof. intros Hm. destruct s; simpl; by rewrite Hm. Qed.

(** No match of the pattern starts at a character that is not a [y]. *)
Lemma pattern_head (c : N) (s : list N) :
  c ≠ 121%N → matchAt pattern (c :: s) None (λ _ g', Some g') = None.
Proof.
  intros Hc. assert (N.eqb 121 c = false) as Hc' by (by apply N.eqb_neq).
  unfold pattern. cbn [matchAt]. unfold units. cbn [list_ascii_of_string fmap list_fmap].
  cbn [stripPrefix]. change (N_of_ascii "y") with 121%N. by rewrite Hc'.
Qed.

Lemma search_skip (pre s : list N) :
  121%N ∉ pre → search pattern (pre ++ s) = search pattern s.
Proof.
  induction pre as [|c pre IH]; [done|].
  intros [Hc Hpre]%not_elem_of_cons. cbn [app search].
  rewrite pattern_head by done. by apply IH.
Qed.

Lemma idChar_notSlash (c : N) : idChar c = true → c ≠ 47%N.
Proof. intros Hc ->. by vm_compute in Hc. Qed.

Lemma idChar_queryMark (c : N) : idChar c = true → queryMark c = false.
Proof.
  unfold idChar, queryMark. intros Hc.
  destruct (N.eqb c 63) eqn:H63; [by rewrite !orb_true_r in Hc|].
  destruct (N.eqb c 38) eqn:H38; [by rewrite !orb_true_r in Hc|done].
Qed.

Lemma matchGroup_app (n : nat) (p : N → bool) (id rest : list N) (g : option (list N)) :
  length id = n → Forall (λ c, p c = true) id →
  matchAt (Group (Rep n p)) (id ++ rest) g (λ _ g', Some g') = Some (Some id).
Proof.
  intros Hlen Hid. cbn [matchAt]. rewrite matchRep_app by done.
  by rewrite take_app_length_diff.
Qed.

Lemma matchStar_skip {R : Type} (p : N → bool) (k : list N → option R)
    (w s : list N) (x : R) :
  Forall (λ c, p c = true) w → matchStar p k s = Some x →
  matchStar p k (w ++ s) = Some x.
Proof.
  intros Hw Hs. induction Hw as [|c w Hc _ IH]; [done|].
  cbn [app matchStar]. by rewrite Hc, IH.
Qed.

Lemma suffix_app_inv (s' id rest : list N) :
  suffix s' (id ++ rest) →
  (∃ c id', s' = c :: id' ++ rest ∧ c ∈ id) ∨ suffix s' rest.
Proof.
  revert s'. induction id as [|c id IH]; intros s' Hs; [by right|].
  destruct s' as [|c0 s']; [right; apply suffix_nil|].
  cbn [app] in Hs. apply suffix_cons_inv in Hs as [[= -> ->]|Hs].
  - left. exists c, id. split; [done|]. by left.
  - destruct (IH _ Hs) as [(c' & id' & -> & Hin)|Hr]; [|by right].
    left. exists c', id'. split; [done|]. by right.
Qed.

(** What a match of the pattern leaves in the group: eleven id characters
    found in the input after one of the two hosts. *)
Lemma pattern_group (s : list N) (g : option (list N)) :
  matchAt pattern s None (λ _ g', Some g') = Some g →
  ∃ host mid id post, s = host ++ mid ++ id ++ post
    ∧ (host = units "youtube.com/" ∨ host = units "youtu.be/")
    ∧ g = Some id ∧ length id = 11%nat ∧ Forall (λ c, idChar c = true) id.
Proof. unfold pattern. apply hosts_then_group. Qed.

(** The helper never answers with [undefined], and an id it answers with
    is eleven characters of the URL that stand side by side somewhere
    after [youtube.com/] or [youtu.be/], none of them a double quote, an
    ampersand, a question mark, a slash or white space. *)
Theorem extracted_id_is_eleven_url_characters (url : list N) :
  extractYouTubeId url ≠ NoGroup
  ∧ ∀ id, extractYouTubeId url = YouTubeId id →
      length id = 11%nat ∧ Forall (λ c, idChar c = true) id
      ∧ ∃ pre host mid post, url = pre ++ host ++ mid ++ id ++ post
          ∧ (host = units "youtube.com/" ∨ host = units "youtu.be/").
Proof.
  unfold extractYouTubeId, patterns, extractFrom.
  destruct (search pattern url) as [g|] eqn:Hs; [|by split].
  apply search_Some in Hs as (s' & [pre ->] & Hm).
  apply pattern_group in Hm as (host & mid & id & post & -> & Hhost & -> & Hlen & Hid).
  split; [done|]. intros ? [= <-]. repeat split; [done..|].
  by exists pre, host, mid, post.
Qed.

(** The id of a short link is the eleven characters after [youtu.be/]:
    whatever comes before the host, as long as it has no [y], and whatever
    follows the eleven characters. *)
Theorem short_link_gives_its_id (pre id rest : list N) :
  121%N ∉ pre → length id = 11%nat → Forall (λ c, idChar c = true) id →
  extractYouTubeId (pre ++ units "youtu.be/" ++ id ++ rest) = YouTubeId id.
Proof.
  intros Hpre Hlen Hid. unfold extractYouTubeId, patterns, extractFrom.
  rewrite search_skip by done.
  rewrite (search_hit _ _ (Some id)); [done|].
  unfold pattern.
  match goal with
  | |- matchAt (Seq ?a ?b) ?s _ ?k = _ =>
      change (matchAt a s None (λ s' g', matchAt b s' g' k) = Some (Some id))
  end.
  cbn [matchAt].
  change (stripPrefix (units "youtube.com/") (units "youtu.be/" ++ id ++ rest))
    with (@None (list N)).
  rewrite stripPrefix_app. exact (matchGroup_app 11 idChar id rest None Hlen Hid).
Qed.

(** The id of a watch link is the eleven characters after [watch?v=], when
    what follows them has no slash and no further [v=]. *)
Theorem watch_link_gives_its_id (pre id rest : list N) :
  121%N ∉ pre → length id = 11%nat → Forall (λ c, idChar c = true) id →
  47%N ∉ rest → (∀ a b, rest ≠ a ++ units "v=" ++ b) →
  extractYouTubeId (pre ++ units "youtube.com/watch?v=" ++ id ++ rest) = YouTubeId id.
Proof.
  intros Hpre Hlen Hid Hslash Hv. unfold extractYouTubeId, patterns, extractFrom.
  rewrite search_skip by done.
  rewrite (search_hit _ _ (Some id)); [done|].
  change (units "youtube.com/watch?v=" ++ id ++ rest)
    with (units "youtube.com/" ++ units "watch" ++ units "?v=" ++ id ++ rest).
  unfold pattern.
  match goal with
  | |- matchAt (Seq ?a ?b) ?s _ ?k = _ =>
      change (matchAt a s None (λ s' g', matchAt b s' g' k) = Some (Some id));
      set (kG := λ s' g', matchAt b s' g' k)
  end.
  cbn [matchAt]. rewrite stripPrefix_app.
  (* the first way after the host needs a slash *)
  assert (∀ s', suffix s' (units "atch" ++ units "?v=" ++ id ++ rest) →
            stripPrefix (units "/") s' = None) as Hno.
  { intros [|c s'] Hs'; [done|].
    assert (c ≠ 47%N) as Hc.
    { intros ->. destruct Hs' as [a Ha].
      assert (47%N ∈ units "atch" ++ units "?v=" ++ id ++ rest) as Hin
        by (rewrite Ha; apply elem_of_app; right; by left).
      rewrite !elem_of_app in Hin. destruct Hin as [Hin|[Hin|[Hin|Hin]]].
      - vm_compute in Hin. by repeat
          (apply elem_of_cons in Hin as [Hin|Hin]; [discriminate Hin|]);
          apply elem_of_nil in Hin.
      - vm_compute in Hin. by repeat
          (apply elem_of_cons in Hin as [Hin|Hin]; [discriminate Hin|]);
          apply elem_of_nil in Hin.
      - rewrite Forall_forall in Hid. by apply (idChar_notSlash _ (Hid _ Hin)).
      - done. }
    change (units "/") with [47%N]. cbn [stripPrefix].
    by rewrite (proj2 (N.eqb_neq 47 c)). }
  change (units "watch" ++ units "?v=" ++ id ++ rest)
    with (119%N :: units "atch" ++ units "?v=" ++ id ++ rest).
  change (notSlash 119) with true. cbv iota.
  rewrite matchStar_None; [|intros s' Hs'; by rewrite (Hno s' Hs')].
  (* the second way needs [v/], [e/] or [embed/] *)
  change (stripPrefix (units "v") (119%N :: ?s)) with (@None (list N)).
  change (stripPrefix (units "e") (119%N :: ?s)) with (@None (list N)).
  cbv iota.
  (* the third way: the star gives back all it took after the last [?v=] *)
  change (119%N :: units "atch" ++ units "?v=" ++ id ++ rest)
    with (units "watch" ++ 63%N :: units "v=" ++ id ++ rest).
  erewrite matchStar_skip; [done| |].
  { by repeat constructor. }
  cbn [matchStar]. change (dot 63) with true. cbv iota.
  rewrite matchStar_None.
  - change (queryMark 63) with true. cbv iota. rewrite stripPrefix_app.
    exact (matchGroup_app 11 idChar id rest None Hlen Hid).
  - intros s' Hs'.
    change (units "v=" ++ id ++ rest) with (118%N :: 61%N :: id ++ rest) in Hs'.
    destruct s' as [|c s']; [done|].
    apply suffix_cons_inv in Hs' as [[= -> ->]|Hs']; [done|].
    apply suffix_cons_inv in Hs' as [[= -> ->]|Hs']; [done|].
    apply suffix_app_inv in Hs' as [(c' & id' & [= -> ->] & Hin)|[a Ha]].
    + rewrite Forall_forall in Hid.
      by rewrite (idChar_queryMark _ (Hid _ Hin)).
    + destruct (queryMark c); [|done].
      destruct (stripPrefix (units "v=") s') as [t|] eqn:Ht; [|done].
      apply stripPrefix_Some in Ht as ->. exfalso.
      apply (Hv (a ++ [c]) t). by rewrite <- app_assoc.
Qed.

Ltac only_other_characters :=
  let Hin := fresh "Hin" in
  intros Hin; vm_compute in Hin;
  repeat (apply elem_of_cons in Hin as [Hin|Hin]; [discriminate Hin|]);
  by apply elem_of_nil in Hin.

Lemma short_link_witness :
  extractYouTubeId (units "https://youtu.be/dQw4w9WgXcQrest?t=4")
    = YouTubeId (units "dQw4w9WgXcQ").
Proof.
  apply (short_link_gives_its_id (units "https://") (units "dQw4w9WgXcQ")
           (units "rest?t=4")).
  - only_other_characters.
  - reflexivity.
  - by repeat constructor.
Defined.

Lemma watch_link_witness :
  extractYouTubeId (units "https://www.youtube.com/watch?v=dQw4w9WgXcQ&t=30s")
    = YouTubeId (units "dQw4w9WgXcQ").
Proof.
  apply (watch_link_gives_its_id (units "https://www.") (units "dQw4w9WgXcQ")
           (units "&t=30s")).
  - only_other_characters.
  - reflexivity.
  - by repeat constructor.
  - only_other_characters.
  - intros a b Heq. vm_compute in Heq.
    repeat (destruct a as [|? a]; [discriminate Heq|]; injection Heq as _ Heq).
    destruct a; discriminate Heq.
Defined.
